(** * G2Crowd-Scraper: a shallow embedding of [src/main.py]

    The scraper visits a list of URLs with a Playwright page, fills one
    [GProduct] per URL from five XPath lookups and writes the collection
    through pandas to [g2_data.csv] and [g2_data.json].

    Definitions:
    - [Py]: the Python built-ins the scraper calls ([str] of a list of
      strings, [str.split], indexing, [int], [float]);
    - the record model ([GProduct], [asdict]);
    - the pandas exports ([json_normalize], [to_csv], [to_json]);
    - the Playwright page as a state-passing capability, the state of a
      run with its store of [GProduct] objects, and
      [scrape_g2crowd_urls] in a small state-and-exception monad;
    - a number format, a JSON decoder and scripted pages, to run the
      scraper and to read its output back.

    Properties: the loop body and its failures, then the two exports. *)

From Stdlib Require Import ZArith String Ascii List Bool Lia.
From Stdlib Require Import Floats.SpecFloat Floats.FloatOps Floats.PrimFloat.
From Stdlib Require DecimalString.
From stdpp Require Import base option list gmap strings.

Local Open Scope string_scope.
Local Open Scope Z_scope.
Local Open Scope list_scope.

(** ** Python built-ins *)

Module Py.

(** Python strings are sequences of code points.  The model keeps the
    code points below 256 (Rocq's [ascii]), which is where every
    character the parsing chain looks at lives. *)

Definition code (c : ascii) : N := N_of_ascii c.

Definition chr_quote : ascii := ascii_of_N 39.      (* ' *)
Definition chr_dquote : ascii := ascii_of_N 34.
Definition chr_backslash : ascii := ascii_of_N 92.
Definition chr_tab : ascii := ascii_of_N 9.
Definition chr_lf : ascii := ascii_of_N 10.
Definition chr_cr : ascii := ascii_of_N 13.

Definition chars (s : string) : list ascii := list_ascii_of_string s.
Definition text (l : list ascii) : string := string_of_list_ascii l.

(** The exceptions that can leave an expression of the scraper. *)
Inductive exn :=
| PlaywrightError (message : string)   (* playwright.async_api.Error *)
| ValueError
| IndexError
| UnboundLocalError.

Inductive result (A : Type) :=
| Ok (a : A)
| Raise (e : exn).
Arguments Ok {A} a.
Arguments Raise {A} e.

(** *** [repr] of a string and [str] of a list *)

(** [str.isprintable] on the Latin-1 range: controls (Cc), the
    no-break space (Zs other than U+0020) and the soft hyphen (Cf) are
    not printable. *)
Definition isprintable (c : ascii) : bool :=
  let n := code c in
  ((32 <=? n) && (n <? 127) || (161 <=? n) && negb (n =? 173))%N.

Definition hexdigit (n : N) : ascii :=
  (if n <? 10 then ascii_of_N (48 + n) else ascii_of_N (87 + n))%N.

(** One character of [repr(s)] inside the quote [q]. *)
Definition repr_char (q c : ascii) : list ascii :=
  if (Ascii.eqb c q || Ascii.eqb c chr_backslash)%bool then [chr_backslash; c]
  else if Ascii.eqb c chr_tab then [chr_backslash; "t"%char]
  else if Ascii.eqb c chr_lf then [chr_backslash; "n"%char]
  else if Ascii.eqb c chr_cr then [chr_backslash; "r"%char]
  else if isprintable c then [c]
  else [chr_backslash; "x"%char; hexdigit (code c / 16); hexdigit (code c mod 16)]%N.

Definition has_char (c : ascii) (l : list ascii) : bool :=
  existsb (Ascii.eqb c) l.

(** [unicode_repr] quotes with ['], unless the string holds a ['] and
    no double quote. *)
Definition repr_quote (l : list ascii) : ascii :=
  if (has_char chr_quote l && negb (has_char chr_dquote l))%bool
  then chr_dquote else chr_quote.

Definition repr (s : string) : string :=
  let l := chars s in
  let q := repr_quote l in
  text (q :: flat_map (repr_char q) l ++ [q]).

Fixpoint join (sep : string) (l : list string) : string :=
  match l with
  | [] => ""
  | [x] => x
  | x :: rest => x +:+ sep +:+ join sep rest
  end.

(** [str(l)] for a list of strings: [list.__repr__]. *)
Definition str_list (l : list string) : string :=
  "[" +:+ join ", " (map repr l) +:+ "]".

(** *** [str.split(sep)] with a one-character separator, and indexing *)

Fixpoint split_chars (sep : ascii) (cur : list ascii) (l : list ascii)
  : list string :=
  match l with
  | [] => [text (rev cur)]
  | c :: rest =>
      if Ascii.eqb c sep then text (rev cur) :: split_chars sep [] rest
      else split_chars sep (c :: cur) rest
  end.

Definition split (sep : ascii) (s : string) : list string :=
  split_chars sep [] (chars s).

(** [l[i]] for a non-negative literal index. *)
Definition index {A} (l : list A) (i : nat) : result A :=
  match l !! i with
  | Some x => Ok x
  | None => Raise IndexError
  end.

(** *** [int(s)] in base 10 *)

(** [Py_ISSPACE] after [_PyUnicode_TransformDecimalAndSpaceToASCII]:
    the ASCII blanks, and the two Latin-1 spaces that the transform
    turns into a blank. *)
Definition isspace (c : ascii) : bool :=
  let n := code c in
  ((9 <=? n) && (n <=? 13) || (n =? 32) || (n =? 133) || (n =? 160))%N.

Definition isdigit (c : ascii) : bool :=
  let n := code c in ((48 <=? n) && (n <=? 57))%N.

Definition digit_value (c : ascii) : Z := Z.of_N (code c) - 48.

Fixpoint lstrip (l : list ascii) : list ascii :=
  match l with
  | c :: rest => if isspace c then lstrip rest else l
  | [] => []
  end.

Definition strip (l : list ascii) : list ascii :=
  rev (lstrip (rev (lstrip l))).

Definition split_sign (l : list ascii) : bool * list ascii :=
  match l with
  | "-"%char :: rest => (true, rest)
  | "+"%char :: rest => (false, rest)
  | _ => (false, l)
  end.

(** Digits with single underscores between them, read left to right:
    [acc] is the value so far, [n] the number of digits, [prev] whether
    the previous character was an underscore.  Returns the value, the
    digit count and what follows the run. *)
Fixpoint scan_digits (acc : Z) (n : nat) (prev : bool) (l : list ascii)
  : option (Z * nat * list ascii) :=
  match l with
  | c :: rest =>
      if isdigit c then scan_digits (10 * acc + digit_value c) (S n) false rest
      else if Ascii.eqb c "_"%char then
        if prev then None else scan_digits acc n true rest
      else if prev then None else Some (acc, n, l)
  | [] => if prev then None else Some (acc, n, [])
  end.

(** [sys.get_int_max_str_digits()], the default of CPython 3.11 and of
    the security releases of 3.7 to 3.10. *)
Definition int_max_str_digits : nat := 4300.

Definition int (s : string) : result Z :=
  let '(neg, body) := split_sign (strip (chars s)) in
  match body with
  | "_"%char :: _ => Raise ValueError
  | _ =>
      match scan_digits 0 0 false body with
      | Some (v, n, []) =>
          if (n =? 0)%nat then Raise ValueError
          else if (int_max_str_digits <? n)%nat then Raise ValueError
          else Ok (if neg then - v else v)
      | _ => Raise ValueError
      end
  end.

(** *** [float(s)] *)

(** Python floats are IEEE-754 binary64 values: [spec_float] at
    precision 53 and maximal exponent 1024. *)
Definition pyfloat : Type := spec_float.

Definition float_zero : pyfloat := S754_zero false.     (* 0.0 *)

(** The binary64 nearest to [m * 10 ^ e10] (ties to even), for a
    non-negative mantissa: an integer is rounded directly, a quotient
    through the division core, which keeps enough bits of the quotient
    and the position of the remainder. *)
Definition binary64_of_decimal (neg : bool) (m e10 : Z) : pyfloat :=
  match m with
  | Z0 => S754_zero neg
  | Zpos p =>
      if 0 <=? e10 then
        let n := Zpos p * 10 ^ e10 in
        binary_normalize prec emax (if neg then - n else n) 0 neg
      else
        let '(q, e, l) :=
          SFdiv_core_binary prec emax (Zpos p) 0 (10 ^ (- e10)) 0 in
        binary_round_aux prec emax neg q e l
  | Zneg _ => S754_nan
  end.

(** [_Py_string_to_number_with_underscores]: an underscore is allowed
    only between two digits; the digits are parsed without them. *)
Fixpoint drop_underscores (prev : option ascii) (l : list ascii)
  : option (list ascii) :=
  match l with
  | [] =>
      match prev with
      | Some "_"%char => None
      | _ => Some []
      end
  | c :: rest =>
      if Ascii.eqb c "_"%char then
        match prev with
        | Some p => if isdigit p then drop_underscores (Some c) rest else None
        | None => None
        end
      else
        match prev with
        | Some "_"%char =>
            if isdigit c then cons c <$> drop_underscores (Some c) rest
            else None
        | _ => cons c <$> drop_underscores (Some c) rest
        end
  end.

(** A run of decimal digits: its value on top of [acc], its length and
    the rest. *)
Fixpoint span_digits (acc : Z) (n : nat) (l : list ascii)
  : Z * nat * list ascii :=
  match l with
  | c :: rest =>
      if isdigit c then span_digits (10 * acc + digit_value c) (S n) rest
      else (acc, n, l)
  | [] => (acc, n, [])
  end.

Definition lower (c : ascii) : ascii :=
  let n := code c in
  (if (65 <=? n) && (n <=? 90) then ascii_of_N (n + 32) else c)%N.

(** [_Py_parse_inf_or_nan] on what follows the sign. *)
Definition parse_inf_or_nan (neg : bool) (l : list ascii) : option pyfloat :=
  let w := text (map lower l) in
  if (String.eqb w "inf" || String.eqb w "infinity")%bool
  then Some (S754_infinity neg)
  else if String.eqb w "nan" then Some S754_nan
  else None.

(** The decimal grammar of [_Py_dg_strtod] on what follows the sign:
    digits, an optional point and digits, at least one digit in all,
    and an optional exponent that must have digits.  Returns mantissa
    and decimal exponent. *)
Definition parse_decimal (l : list ascii) : option (Z * Z) :=
  let '(ip, ni, r1) := span_digits 0 0 l in
  let '(m, nf, r2) :=
    match r1 with
    | "."%char :: r => span_digits ip 0 r
    | _ => (ip, 0%nat, r1)
    end in
  if (ni + nf =? 0)%nat then None
  else
    match r2 with
    | [] => Some (m, - Z.of_nat nf)
    | c :: r3 =>
        if Ascii.eqb (lower c) "e"%char then
          let '(eneg, r4) := split_sign r3 in
          match span_digits 0 0 r4 with
          | (x, nx, []) =>
              if (nx =? 0)%nat then None
              else Some (m, (if eneg then - x else x) - Z.of_nat nf)
          | _ => None
          end
        else None
    end.

Definition float (s : string) : result pyfloat :=
  match drop_underscores None (strip (chars s)) with
  | None => Raise ValueError
  | Some l =>
      let '(neg, body) := split_sign l in
      match parse_decimal body with
      | Some (m, e10) => Ok (binary64_of_decimal neg m e10)
      | None =>
          match parse_inf_or_nan neg body with
          | Some x => Ok x
          | None => Raise ValueError
          end
      end
  end.

(** [str(x)] of a string is the string itself. *)
Definition str (s : string) : string := s.

End Py.

Import Py.

(** The double quote, which the XPath selectors, the CSV writer and
    the JSON encoder all need. *)
Definition dq : string := String chr_dquote "".
Definition lf : string := String chr_lf "".

(** ** Texts and their characters *)

(** Every character of the text satisfies [P]. *)
Definition all_chars (P : ascii -> bool) (s : string) : bool :=
  forallb P (chars s).



(** The characters of a number literal of JSON. *)
Definition number_char (c : ascii) : bool :=
  isdigit c || Ascii.eqb c "."%char || Ascii.eqb c "e"%char
  || Ascii.eqb c "E"%char || Ascii.eqb c "+"%char || Ascii.eqb c "-"%char.

(** ** The record model *)

(** [GProduct]: a dataclass of five fields with defaults [None],
    [None], [0.0], [0.0], [0.0]. *)
Record GProduct := {
  title : option string;
  reviews : option Z;
  seo_ease_use_average : pyfloat;
  seo_quality_support_average : pyfloat;
  seo_ease_setup_average : pyfloat
}.

(** [GProduct()] *)
Definition GProduct_default : GProduct := {|
  title := None;
  reviews := None;
  seo_ease_use_average := float_zero;
  seo_quality_support_average := float_zero;
  seo_ease_setup_average := float_zero
|}.

Definition set_title (v : string) (p : GProduct) : GProduct :=
  {| title := Some v; reviews := reviews p;
     seo_ease_use_average := seo_ease_use_average p;
     seo_quality_support_average := seo_quality_support_average p;
     seo_ease_setup_average := seo_ease_setup_average p |}.

Definition set_reviews (v : Z) (p : GProduct) : GProduct :=
  {| title := title p; reviews := Some v;
     seo_ease_use_average := seo_ease_use_average p;
     seo_quality_support_average := seo_quality_support_average p;
     seo_ease_setup_average := seo_ease_setup_average p |}.

Definition set_seo_ease_use_average (v : pyfloat) (p : GProduct) : GProduct :=
  {| title := title p; reviews := reviews p;
     seo_ease_use_average := v;
     seo_quality_support_average := seo_quality_support_average p;
     seo_ease_setup_average := seo_ease_setup_average p |}.

Definition set_seo_quality_support_average (v : pyfloat) (p : GProduct)
  : GProduct :=
  {| title := title p; reviews := reviews p;
     seo_ease_use_average := seo_ease_use_average p;
     seo_quality_support_average := v;
     seo_ease_setup_average := seo_ease_setup_average p |}.

Definition set_seo_ease_setup_average (v : pyfloat) (p : GProduct) : GProduct :=
  {| title := title p; reviews := reviews p;
     seo_ease_use_average := seo_ease_use_average p;
     seo_quality_support_average := seo_quality_support_average p;
     seo_ease_setup_average := v |}.

(** The scalars a field can hold. *)
Inductive value :=
| VNone
| VStr (s : string)
| VInt (z : Z)
| VFloat (f : pyfloat).

Definition of_option {A} (inj : A -> value) (o : option A) : value :=
  match o with
  | Some a => inj a
  | None => VNone
  end.

(** The five field names, in declaration order. *)
Definition field_names : list string :=
  ["title"; "reviews"; "seo_ease_use_average";
   "seo_quality_support_average"; "seo_ease_setup_average"].

(** [dataclasses.asdict]: the fields in declaration order. *)
Definition asdict (p : GProduct) : list (string * value) :=
  [("title", of_option VStr (title p));
   ("reviews", of_option VInt (reviews p));
   ("seo_ease_use_average", VFloat (seo_ease_use_average p));
   ("seo_quality_support_average", VFloat (seo_quality_support_average p));
   ("seo_ease_setup_average", VFloat (seo_ease_setup_average p))].

(** ** The pandas exports *)

(** pandas is a library the scraper imports.  What follows is the
    behaviour of the three calls the two [save_to_] methods make, on
    the frames this program builds: flat records of strings, integers,
    floats and [None]. *)

(** A frame: the column labels and one list of cells per row. *)
Record DataFrame := {
  columns : list string;
  rows : list (list value)
}.

(** Labels in order of first appearance, as [DataFrame] collects the
    keys of a list of dicts. *)
Fixpoint first_seen (seen : list string) (l : list string) : list string :=
  match l with
  | [] => []
  | k :: rest =>
      if decide (k ∈ seen) then first_seen seen rest
      else k :: first_seen (k :: seen) rest
  end.

Fixpoint dict_get (k : string) (d : list (string * value)) : option value :=
  match d with
  | [] => None
  | (k', v) :: rest => if decide (k = k') then Some v else dict_get k rest
  end.

(** A key a dict lacks is read as NaN. *)
Definition cell_of (d : list (string * value)) (k : string) : value :=
  default (VFloat S754_nan) (dict_get k d).

(** [pd.json_normalize(dicts, sep="_")] on flat dicts: the records have
    no nested dict, so no label is joined with the separator, and the
    frame is [DataFrame(dicts)].  No dict means no label: the columns
    come from the data, not from the dataclass. *)
Definition json_normalize (dicts : list (list (string * value))) : DataFrame :=
  let cols := first_seen [] (flat_map (map fst) dicts) in
  {| columns := cols;
     rows := map (fun d => map (cell_of d) cols) dicts |}.

(** How pandas prints numbers is not this repository's code: the text
    numpy gives a float64 in [to_csv], the text the JSON encoder gives a
    finite double, and whether a column of integers and [None] was
    inferred as float64 (so that its integers print as floats). *)
Record NumberFormat := {
  float_str : pyfloat -> string;
  json_double : pyfloat -> string;
  ints_as_float : list value -> bool
}.

(** [str] of a Python int. *)
Definition str_int (z : Z) : string :=
  DecimalString.NilZero.string_of_int (Z.to_int z).

(** The float64 nearest to an integer. *)
Definition float_of_int (z : Z) : pyfloat :=
  binary_normalize prec emax z 0 false.

Definition isnan (f : pyfloat) : bool :=
  match f with
  | S754_nan => true
  | _ => false
  end.

Definition isfinite (f : pyfloat) : bool :=
  match f with
  | S754_nan | S754_infinity _ => false
  | _ => true
  end.

Section Exports.

Variable fmt : NumberFormat.

(** *** [DataFrame.to_csv(path, index=False)] *)

(** The text of one cell, given the cells of its column: missing
    values ([None], NaN) are written as the empty [na_rep]. *)
Definition csv_float (f : pyfloat) : string :=
  if isnan f then "" else float_str fmt f.

Definition csv_cell (column : list value) (v : value) : string :=
  match v with
  | VNone => ""
  | VStr s => s
  | VInt z =>
      if ints_as_float fmt column then csv_float (float_of_int z)
      else str_int z
  | VFloat f => csv_float f
  end.

Definition column_at (df : DataFrame) (j : nat) : list value :=
  omap (fun r => r !! j) (rows df).

Definition csv_row (df : DataFrame) (r : list value) : list string :=
  imap (fun j v => csv_cell (column_at df j) v) r.

(** [csv.writer] with the default dialect and the line terminator of a
    POSIX system: [QUOTE_MINIMAL] quotes a field that holds the
    delimiter, the quote character or a character of the line
    terminator, and doubles the quote character inside it; a row of one
    empty field is written as an empty quoted field. *)
Definition csv_special (c : ascii) : bool :=
  (Ascii.eqb c ","%char || Ascii.eqb c chr_dquote || Ascii.eqb c chr_lf)%bool.

Definition csv_escape (c : ascii) : list ascii :=
  if Ascii.eqb c chr_dquote then [c; c] else [c].

Definition csv_field (s : string) : string :=
  if existsb csv_special (chars s)
  then dq +:+ text (flat_map csv_escape (chars s)) +:+ dq
  else s.

Definition writerow (fields : list string) : string :=
  match fields with
  | [""] => dq +:+ dq +:+ lf
  | _ => join "," (map csv_field fields) +:+ lf
  end.

Definition concat_str (l : list string) : string :=
  foldr String.append "" l.

(** The rows handed to the writer: the header, then one row per
    record; no index column is prepended to either. *)
Definition csv_rows (df : DataFrame) : list (list string) :=
  columns df :: map (csv_row df) (rows df).

Definition to_csv (df : DataFrame) : string :=
  concat_str (map writerow (csv_rows df)).

(** *** [DataFrame.to_json(path, orient="records")] *)

Inductive json :=
| JNull
| JString (s : string)
| JNumber (literal : string).

(** A double that is not finite is written as [null]. *)
Definition json_float (f : pyfloat) : json :=
  if isfinite f then JNumber (json_double fmt f) else JNull.

(** A JSON document in the records orientation: an array of objects,
    each a sequence of members. *)
Definition json_cell (column : list value) (v : value) : json :=
  match v with
  | VNone => JNull
  | VStr s => JString s
  | VInt z =>
      if ints_as_float fmt column then json_float (float_of_int z)
      else JNumber (str_int z)
  | VFloat f => json_float f
  end.

Definition json_record (df : DataFrame) (r : list value)
  : list (string * json) :=
  zip (columns df) (imap (fun j v => json_cell (column_at df j) v) r).

Definition to_json_records (df : DataFrame) : list (list (string * json)) :=
  map (json_record df) (rows df).

(** The encoder's string escapes (ASCII output, forward slash escaped). *)
Definition json_escape (c : ascii) : list ascii :=
  let n := code c in
  if Ascii.eqb c chr_dquote then [chr_backslash; c]
  else if Ascii.eqb c chr_backslash then [chr_backslash; c]
  else if Ascii.eqb c "/"%char then [chr_backslash; c]
  else if (n =? 8)%N then [chr_backslash; "b"%char]
  else if (n =? 12)%N then [chr_backslash; "f"%char]
  else if Ascii.eqb c chr_lf then [chr_backslash; "n"%char]
  else if Ascii.eqb c chr_cr then [chr_backslash; "r"%char]
  else if Ascii.eqb c chr_tab then [chr_backslash; "t"%char]
  else if ((n <? 32) || (127 <? n))%N then
    [chr_backslash; "u"%char; "0"%char; "0"%char;
     hexdigit (n / 16); hexdigit (n mod 16)]%N
  else [c].

Definition json_string (s : string) : string :=
  dq +:+ text (flat_map json_escape (chars s)) +:+ dq.

Definition json_value (j : json) : string :=
  match j with
  | JNull => "null"
  | JString s => json_string s
  | JNumber lit => lit
  end.

Definition json_member (m : string * json) : string :=
  json_string (fst m) +:+ ":" +:+ json_value (snd m).

Definition json_object (o : list (string * json)) : string :=
  "{" +:+ join "," (map json_member o) +:+ "}".

Definition json_array (l : list (list (string * json))) : string :=
  "[" +:+ join "," (map json_object l) +:+ "]".

Definition to_json (df : DataFrame) : string :=
  json_array (to_json_records df).

End Exports.

(** ** The Playwright page *)

(** What an awaited Playwright call does: it returns, or it raises
    [playwright.async_api.Error] (or its subclass [TimeoutError]) with
    a message. *)
Inductive outcome (A : Type) :=
| Returned (a : A)
| Failed (message : string).
Arguments Returned {A} a.
Arguments Failed {A} message.

(** The page, as far as the scraper uses it.  [W] is the state of the
    browser and of the sites it talks to; every call may change it.
    [inner_text sel] is [page.locator(sel).inner_text()] and
    [all_inner_texts sel] is [page.locator(sel).all_inner_texts()]. *)
Record Page (W : Type) := {
  goto : string -> W -> outcome unit * W;
  wait_for_load_state : W -> outcome unit * W;
  inner_text : string -> W -> outcome string * W;
  all_inner_texts : string -> W -> outcome (list string) * W
}.
Arguments goto {W} _ _ _.
Arguments wait_for_load_state {W} _ _.
Arguments inner_text {W} _ _ _.
Arguments all_inner_texts {W} _ _ _.

(** Calls on the browser itself, in the order made. *)
Inductive browser_call :=
| Launch (headless : bool)
| NewPage
| Close.

(** The browser, as far as the run uses it: [launch headless] is
    [playwright.chromium.launch(headless=...)], [new_page] is
    [browser.new_page()] and [close] is [browser.close()].  Each is an
    awaited Playwright call like those on the page: it returns, or it
    raises Playwright's error. *)
Record Browser (W : Type) := {
  launch : bool -> W -> outcome unit * W;
  new_page : W -> outcome unit * W;
  close : W -> outcome unit * W
}.
Arguments launch {W} _ _ _.
Arguments new_page {W} _ _.
Arguments close {W} _ _.

(** ** The state of a run *)

(** [heap] is the store of [GProduct] objects (the address of an object
    is its index), [product] the local variable of that name ([None]
    while it is unbound), [product_list] the addresses held by
    [products_list.product_list], [stdout] the lines printed, [files]
    the working directory. *)
Record state (W : Type) := {
  world : W;
  browser : list browser_call;
  heap : list GProduct;
  product : option nat;
  product_list : list nat;
  stdout : list string;
  files : gmap string string
}.
Arguments world {W} _.
Arguments browser {W} _.
Arguments heap {W} _.
Arguments product {W} _.
Arguments product_list {W} _.
Arguments stdout {W} _.
Arguments files {W} _.

Definition initial {W} (w : W) (fs : gmap string string) : state W := {|
  world := w; browser := []; heap := []; product := None;
  product_list := []; stdout := []; files := fs
|}.

Definition with_world {W} (w : W) (s : state W) : state W := {|
  world := w; browser := browser s; heap := heap s; product := product s;
  product_list := product_list s; stdout := stdout s; files := files s
|}.

Definition with_browser {W} (b : list browser_call) (s : state W) : state W := {|
  world := world s; browser := b; heap := heap s; product := product s;
  product_list := product_list s; stdout := stdout s; files := files s
|}.

Definition with_heap {W} (h : list GProduct) (s : state W) : state W := {|
  world := world s; browser := browser s; heap := h; product := product s;
  product_list := product_list s; stdout := stdout s; files := files s
|}.

Definition with_product {W} (p : option nat) (s : state W) : state W := {|
  world := world s; browser := browser s; heap := heap s; product := p;
  product_list := product_list s; stdout := stdout s; files := files s
|}.

Definition with_product_list {W} (l : list nat) (s : state W) : state W := {|
  world := world s; browser := browser s; heap := heap s; product := product s;
  product_list := l; stdout := stdout s; files := files s
|}.

Definition with_stdout {W} (o : list string) (s : state W) : state W := {|
  world := world s; browser := browser s; heap := heap s; product := product s;
  product_list := product_list s; stdout := o; files := files s
|}.

Definition with_files {W} (f : gmap string string) (s : state W) : state W := {|
  world := world s; browser := browser s; heap := heap s; product := product s;
  product_list := product_list s; stdout := stdout s; files := f
|}.

(** ** Statements as state transformers that may raise *)

Definition M (S A : Type) : Type := S -> result A * S.

Definition ret {S A} (a : A) : M S A := fun s => (Ok a, s).

Definition bind {S A B} (c : M S A) (k : A -> M S B) : M S B :=
  fun s =>
    match c s with
    | (Ok a, s') => k a s'
    | (Raise e, s') => (Raise e, s')
    end.

Declare Scope stmt_scope.
Delimit Scope stmt_scope with stmt.
Notation "x <- c ;; k" := (bind c (fun x => k))
  (at level 100, c at next level, k at level 200, right associativity)
  : stmt_scope.
Notation "c ;; k" := (bind c (fun _ => k))
  (at level 100, k at level 200, right associativity) : stmt_scope.

(** A pure expression that may raise. *)
Definition lift {S A} (r : result A) : M S A := fun s => (r, s).

(** [try: body except Error as e: handler(str(e))]: only Playwright's
    [Error] is caught; any other exception leaves the statement. *)
Definition try_except_Error {S} (body : M S unit) (handler : string -> M S unit)
  : M S unit :=
  fun s =>
    match body s with
    | (Raise (PlaywrightError message), s') => handler message s'
    | r => r
    end.

(** [for x in l: body x] *)
Fixpoint for_each {S A} (body : A -> M S unit) (l : list A) : M S unit :=
  match l with
  | [] => ret tt
  | x :: rest => (body x ;; for_each body rest)%stmt
  end.

(** ** The scraper *)

(** The five XPath selectors of the loop body. *)
Definition title_xpath : string :=
  "//a[@class=" +:+ dq +:+ "c-midnight-100" +:+ dq +:+ "]".

Definition reviews_href : string :=
  "@href=" +:+ dq +:+ "https://www.g2.com/products/conductor/reviews#reviews"
  +:+ dq.

(** The literal continues over a line break: the backslash and the
    newline are dropped, the indentation of the second line stays. *)
Definition reviews_xpath : string :=
  "//a[@class=" +:+ dq +:+ "link js-log-click" +:+ dq +:+ " and "
  +:+ reviews_href +:+ " and                 " +:+ reviews_href +:+ "]".

Definition score_xpath (color : string) : string :=
  "//div[@class=" +:+ dq +:+ "center-center fw-semibold text-medium" +:+ dq
  +:+ " and @style=" +:+ dq +:+ "color: " +:+ color +:+ dq +:+ "]".

Definition seo_ease_use_average_xpath : string := score_xpath "#ff492c".
Definition seo_quality_support_average_xpath : string := score_xpath "#5a39a2".
Definition seo_ease_setup_average_xpath : string := score_xpath "#5a39a2".

(** [int(str(texts).split(" ")[1].split("'")[1])] *)
Definition parse_reviews (texts : list string) : result Z :=
  match index (split " " (str_list texts)) 1 with
  | Raise e => Raise e
  | Ok token =>
      match index (split chr_quote token) 1 with
      | Raise e => Raise e
      | Ok segment => int segment
      end
  end.

Definition log_line (url message : string) : string :=
  "Error scraping " +:+ url +:+ ": " +:+ message.

Section Scraper.

Context {W : Type}.
Variable pg : Page W.
Variable fmt : NumberFormat.

Local Open Scope stmt_scope.

Definition await {A} (call : W -> outcome A * W) : M (state W) A :=
  fun s =>
    match call (world s) with
    | (Returned a, w) => (Ok a, with_world w s)
    | (Failed message, w) => (Raise (PlaywrightError message), with_world w s)
    end.

Definition browser_do (c : browser_call) : M (state W) unit :=
  fun s => (Ok tt, with_browser (browser s ++ [c]) s).

(** [product = GProduct()]: a fresh object, bound to the local. *)
Definition new_product : M (state W) unit :=
  fun s =>
    (Ok tt,
     with_product (Some (length (heap s)))
       (with_heap (heap s ++ [GProduct_default]) s)).

(** Reading the local [product]. *)
Definition load_product : M (state W) nat :=
  fun s =>
    match product s with
    | Some p => (Ok p, s)
    | None => (Raise UnboundLocalError, s)
    end.

(** [product.field = v], the right-hand side already evaluated. *)
Definition setattr (set : GProduct -> GProduct) : M (state W) unit :=
  p <- load_product ;;
  fun s => (Ok tt, with_heap (alter set p (heap s)) s).

Definition print (line : string) : M (state W) unit :=
  fun s => (Ok tt, with_stdout (stdout s ++ [line]) s).

(** [await page.goto(url); await page.wait_for_load_state()] *)
Definition navigate (url : string) : M (state W) unit :=
  await (goto pg url) ;;
  await (wait_for_load_state pg).

(** From [product = GProduct()] to the last assignment. *)
Definition extract : M (state W) unit :=
  new_product ;;
  t <- await (inner_text pg title_xpath) ;;
  setattr (set_title (str t)) ;;
  l <- await (all_inner_texts pg reviews_xpath) ;;
  n <- lift (parse_reviews l) ;;
  setattr (set_reviews n) ;;
  t1 <- await (inner_text pg seo_ease_use_average_xpath) ;;
  a <- lift (float (str t1)) ;;
  setattr (set_seo_ease_use_average a) ;;
  t2 <- await (inner_text pg seo_quality_support_average_xpath) ;;
  b <- lift (float (str t2)) ;;
  setattr (set_seo_quality_support_average b) ;;
  t3 <- await (inner_text pg seo_ease_setup_average_xpath) ;;
  c <- lift (float (str t3)) ;;
  setattr (set_seo_ease_setup_average c).

(** The body of the [try]. *)
Definition try_body (url : string) : M (state W) unit :=
  navigate url ;; extract.

(** [products_list.product_list.append(product)] *)
Definition append_product : M (state W) unit :=
  p <- load_product ;;
  fun s => (Ok tt, with_product_list (product_list s ++ [p]) s).

(** One turn of the loop. *)
Definition iteration (url : string) : M (state W) unit :=
  try_except_Error (try_body url)
    (fun message => print (log_line url message)) ;;
  append_product.

(** The records of the collection, in order. *)
Definition product_records (s : state W) : list GProduct :=
  omap (fun p => heap s !! p) (product_list s).

(** [GProductList.dataframe]: derived from the list at every call. *)
Definition dataframe (s : state W) : DataFrame :=
  json_normalize (map asdict (product_records s)).

Definition write_file (path content : string) : M (state W) unit :=
  fun s => (Ok tt, with_files (<[path := content]> (files s)) s).

Definition save_to_csv (filename : string) : M (state W) unit :=
  fun s => write_file (filename +:+ ".csv") (to_csv fmt (dataframe s)) s.

Definition save_to_json (filename : string) : M (state W) unit :=
  fun s => write_file (filename +:+ ".json") (to_json fmt (dataframe s)) s.

Definition scrape_g2crowd_urls (g2crowd_urls : list string) : M (state W) unit :=
  browser_do (Launch false) ;;
  browser_do NewPage ;;
  for_each iteration g2crowd_urls ;;
  save_to_csv "g2_data" ;;
  save_to_json "g2_data" ;;
  browser_do Close.

(** An awaited call on the browser: the call is recorded, then it
    returns or raises. *)
Definition browser_await (c : browser_call) (call : W -> outcome unit * W)
  : M (state W) unit :=
  browser_do c ;; await call.

(** The run on a browser whose calls may raise.  The three calls stand
    outside the [try], so Playwright's error from one of them leaves
    the function.  [scrape_g2crowd_urls] above is this run on a browser
    whose three calls return. *)
Definition scrape_g2crowd_urls_with (br : Browser W)
    (g2crowd_urls : list string) : M (state W) unit :=
  browser_await (Launch false) (launch br false) ;;
  browser_await NewPage (new_page br) ;;
  for_each iteration g2crowd_urls ;;
  save_to_csv "g2_data" ;;
  save_to_json "g2_data" ;;
  browser_await Close (close br).

(** A browser whose calls return and leave the world as it is. *)
Definition answering : Browser W := {|
  launch := fun _ w => (Returned tt, w);
  new_page := fun w => (Returned tt, w);
  close := fun w => (Returned tt, w)
|}.

(** *** States of the loop, and what the properties speak of *)

(** What a lookup that raises leaves behind.  [lookup_fails w message r w']:
    from the world [w] the lookups of the extraction return, in the
    order of the source, up to one that raises Playwright's error with
    [message] and leaves the world [w']; every text read before it was
    parsed, and [r] is the record with the values assigned from these
    texts and the defaults in the other fields. *)
Inductive lookup_fails (w : W) (message : string) : GProduct -> W -> Prop :=
| fails_at_title w' :
    inner_text pg title_xpath w = (Failed message, w') ->
    lookup_fails w message GProduct_default w'
| fails_at_reviews t w1 w' :
    inner_text pg title_xpath w = (Returned t, w1) ->
    all_inner_texts pg reviews_xpath w1 = (Failed message, w') ->
    lookup_fails w message (set_title (str t) GProduct_default) w'
| fails_at_ease_use t w1 l w2 n w' :
    inner_text pg title_xpath w = (Returned t, w1) ->
    all_inner_texts pg reviews_xpath w1 = (Returned l, w2) ->
    parse_reviews l = Ok n ->
    inner_text pg seo_ease_use_average_xpath w2 = (Failed message, w') ->
    lookup_fails w message
      (set_reviews n (set_title (str t) GProduct_default)) w'
| fails_at_quality_support t w1 l w2 n t1 w3 a w' :
    inner_text pg title_xpath w = (Returned t, w1) ->
    all_inner_texts pg reviews_xpath w1 = (Returned l, w2) ->
    parse_reviews l = Ok n ->
    inner_text pg seo_ease_use_average_xpath w2 = (Returned t1, w3) ->
    float (str t1) = Ok a ->
    inner_text pg seo_quality_support_average_xpath w3 = (Failed message, w') ->
    lookup_fails w message
      (set_seo_ease_use_average a
         (set_reviews n (set_title (str t) GProduct_default))) w'
| fails_at_ease_setup t w1 l w2 n t1 w3 a t2 w4 b w' :
    inner_text pg title_xpath w = (Returned t, w1) ->
    all_inner_texts pg reviews_xpath w1 = (Returned l, w2) ->
    parse_reviews l = Ok n ->
    inner_text pg seo_ease_use_average_xpath w2 = (Returned t1, w3) ->
    float (str t1) = Ok a ->
    inner_text pg seo_quality_support_average_xpath w3 = (Returned t2, w4) ->
    float (str t2) = Ok b ->
    inner_text pg seo_ease_setup_average_xpath w4 = (Failed message, w') ->
    lookup_fails w message
      (set_seo_quality_support_average b
         (set_seo_ease_use_average a
            (set_reviews n (set_title (str t) GProduct_default)))) w'.

(** The state in which the loop is entered, and the states after each
    completed turn; the index counts the completed turns. *)
Definition loop_entry (w : W) (fs : gmap string string) : state W :=
  with_browser [Launch false; NewPage] (initial w fs).

Inductive loop_state (w : W) (fs : gmap string string)
  : nat -> state W -> Prop :=
| loop_enter : loop_state w fs 0 (loop_entry w fs)
| loop_turn n s url s' :
    loop_state w fs n s ->
    iteration url s = (Ok tt, s') ->
    loop_state w fs (S n) s'.

(** Every address the run holds is allocated. *)
Definition allocated (s : state W) : Prop :=
  Forall (fun p => (p < length (heap s))%nat) (product_list s) /\
  forall p, product s = Some p -> (p < length (heap s))%nat.

Definition selectors : list string :=
  [title_xpath; reviews_xpath; seo_ease_use_average_xpath;
   seo_quality_support_average_xpath; seo_ease_setup_average_xpath].

(** A page on which reading a selector again, right after reading it,
    shows the same text. *)
Definition repeatable : Prop :=
  forall sel w t w',
    inner_text pg sel w = (Returned t, w') ->
    fst (inner_text pg sel w') = Returned t.

End Scraper.

(** The configured list of the module. *)
Definition g2crowd_urls : list string :=
  ["https://www.g2.com/products/conductor/features"].

(** ** The calls a run makes on the page *)







(** The number of spaces (U+0020) of a text. *)
Definition spaces (t : string) : nat :=
  length (List.filter (Ascii.eqb " ") (chars t)).

(** ** A number format for running the exports *)

(** [repr] of a float: the shortest decimal digits that read back as
    the same binary64 (the nearer candidate when both neighbours do),
    printed in fixed notation when the decimal point falls within
    [-4 < decpt <= 16] and in exponent notation otherwise. *)
Module FloatRepr.

(** [m * 2 ^ e] as a fraction. *)
Definition fraction (m : positive) (e : Z) : Z * Z :=
  if 0 <=? e then (Zpos m * 2 ^ e, 1) else (Zpos m, 2 ^ (- e)).

(** [num / den < 10 ^ k] *)
Definition below_pow10 (num den k : Z) : bool :=
  if 0 <=? k then num <? 10 ^ k * den else num * 10 ^ (- k) <? den.

(** The position of the decimal point: the least [k] with
    [num / den < 10 ^ k], searched around the estimate that the binary
    logarithms give. *)
Definition decpt_of (num den : Z) : Z :=
  let est := (Z.log2 num - Z.log2 den) * 30103 / 100000 in
  default (est + 3)
    (find (below_pow10 num den) (map (fun i => est - 2 + i) [0; 1; 2; 3; 4])).

Definition same_float (x y : spec_float) : bool :=
  match x, y with
  | S754_finite s m e, S754_finite s' m' e' =>
      Bool.eqb s s' && Pos.eqb m m' && Z.eqb e e'
  | _, _ => false
  end.

(** The candidates with [n] digits: floor and ceiling of the value
    scaled to [n] digits before the point, the nearer one first. *)
Definition candidates (num den k : Z) (n : Z) : list Z :=
  let '(sn, sd) :=
    if 0 <=? n - k then (num * 10 ^ (n - k), den)
    else (num, den * 10 ^ (k - n)) in
  let lo := sn / sd in
  let r := sn mod sd in
  if r =? 0 then [lo]
  else if 2 * r <? sd then [lo; lo + 1]
  else if sd <? 2 * r then [lo + 1; lo]
  else if Z.even lo then [lo; lo + 1] else [lo + 1; lo].

Definition reads_back (x : spec_float) (k n d : Z) : bool :=
  same_float (binary64_of_decimal false d (k - n)) x.

Fixpoint shortest (x : spec_float) (num den k : Z) (ns : list Z) : Z * Z :=
  match ns with
  | [] => (default 0 (head (candidates num den k 17)), 17)
  | n :: rest =>
      match find (reads_back x k n) (candidates num den k n) with
      | Some d => (d, n)
      | None => shortest x num den k rest
      end
  end.

Fixpoint drop_zeros (fuel : nat) (d : Z) : Z :=
  match fuel with
  | O => d
  | S fuel' => if (d mod 10 =? 0) && negb (d =? 0) then drop_zeros fuel' (d / 10) else d
  end.

Fixpoint zeros (n : nat) : string :=
  match n with
  | O => ""
  | S n' => String "0" (zeros n')
  end.

Definition exponent_text (e : Z) : string :=
  let a := str_int (Z.abs e) in
  (if e <? 0 then "-" else "+") +:+ (if Z.abs e <? 10 then "0" +:+ a else a).

(** The digits [ds] with the decimal point after [decpt] of them. *)
Definition layout (ds : string) (decpt : Z) : string :=
  let len := Z.of_nat (String.length ds) in
  if (decpt <=? -4) || (16 <? decpt) then
    let mantissa :=
      match ds with
      | String c "" => String c ""
      | String c rest => String c ("." +:+ rest)
      | "" => ""
      end in
    mantissa +:+ "e" +:+ exponent_text (decpt - 1)
  else if decpt <=? 0 then "0." +:+ zeros (Z.to_nat (- decpt)) +:+ ds
  else if len <=? decpt then ds +:+ zeros (Z.to_nat (decpt - len)) +:+ ".0"
  else
    substring 0 (Z.to_nat decpt) ds +:+ "."
    +:+ substring (Z.to_nat decpt) (Z.to_nat (len - decpt)) ds.

Definition repr_finite (m : positive) (e : Z) : string :=
  let x := S754_finite false m e in
  let '(num, den) := fraction m e in
  let k := decpt_of num den in
  let '(d, n) := shortest x num den k (map Z.of_nat (seq 1 17)) in
  (* a carry gives one digit more than asked for *)
  let decpt := if 10 ^ n <=? d then k + 1 else k in
  layout (str_int (drop_zeros 18 d)) decpt.

Definition repr (x : pyfloat) : string :=
  match x with
  | S754_nan => "nan"
  | S754_infinity s => if s then "-inf" else "inf"
  | S754_zero s => if s then "-0.0" else "0.0"
  | S754_finite s m e => (if s then "-" else "") +:+ repr_finite m e
  end.

End FloatRepr.

Definition has_none (column : list value) : bool :=
  existsb (fun v => match v with VNone => true | _ => false end) column.

(** Floats print as [repr] prints them; the JSON encoder rounds to ten
    decimals, which leaves the digits of [repr] for every double that
    has no more than ten; a column of integers holding a [None] is
    float64. *)
Definition reference_format : NumberFormat := {|
  float_str := FloatRepr.repr;
  json_double := FloatRepr.repr;
  ints_as_float := has_none
|}.

(** ** Pages for running the scraper *)

(** A scripted page: the replies to the awaited calls, in the order the
    calls are made; a call that finds the script exhausted, or a reply
    of another kind, fails. *)
Inductive reply :=
| Done                                   (* goto, wait_for_load_state *)
| Text (t : string)                      (* inner_text *)
| Texts (l : list string)                (* all_inner_texts *)
| Error (message : string).

Definition off_script {A} : outcome A := Failed "off script".

Definition scripted : Page (list reply) := {|
  goto := fun _ w =>
    match w with
    | Done :: w' => (Returned tt, w')
    | Error m :: w' => (Failed m, w')
    | _ => (off_script, [])
    end;
  wait_for_load_state := fun w =>
    match w with
    | Done :: w' => (Returned tt, w')
    | Error m :: w' => (Failed m, w')
    | _ => (off_script, [])
    end;
  inner_text := fun _ w =>
    match w with
    | Text t :: w' => (Returned t, w')
    | Error m :: w' => (Failed m, w')
    | _ => (off_script, [])
    end;
  all_inner_texts := fun _ w =>
    match w with
    | Texts l :: w' => (Returned l, w')
    | Error m :: w' => (Failed m, w')
    | _ => (off_script, [])
    end
|}.

(** A static page: what a selector shows does not change. *)
Definition static (txt : string -> outcome string)
    (txts : string -> outcome (list string)) : Page unit := {|
  goto := fun _ w => (Returned tt, w);
  wait_for_load_state := fun w => (Returned tt, w);
  inner_text := fun sel w => (txt sel, w);
  all_inner_texts := fun sel w => (txts sel, w)
|}.

(** A scripted browser: its calls take their replies from the script
    of the page, in the order the calls are made. *)
Definition scripted_call (w : list reply) : outcome unit * list reply :=
  match w with
  | Done :: w' => (Returned tt, w')
  | Error m :: w' => (Failed m, w')
  | _ => (off_script, [])
  end.

Definition scripted_browser : Browser (list reply) := {|
  launch := fun _ => scripted_call;
  new_page := scripted_call;
  close := scripted_call
|}.

(** ** Reading a JSON document back *)

(** A decoder for the documents [to_json] writes: an array of objects
    whose members are strings, numbers and [null], with blanks allowed
    between tokens.  It works in two passes, a lexer driven by a small
    state and an automaton over the tokens.  A number is kept as its
    literal. *)
Module Json.

Inductive token :=
| TOpenArray
| TCloseArray
| TOpenObject
| TCloseObject
| TColon
| TComma
| TString (s : string)
| TLiteral (s : string).







(** A number literal: not empty, made of digits, sign, point and
    exponent mark. *)
Definition number_literal (s : string) : bool :=
  negb (String.eqb s "") && all_chars number_char s.

Definition literal_value (s : string) : option json :=
  if String.eqb s "null" then Some JNull
  else if number_literal s then Some (JNumber s)
  else None.

(** The automaton over the tokens.  [objects] and [members] are the
    objects and the members read so far, in reverse. *)
Inductive parsing :=
| Start
| ArrayOpen (objects : list (list (string * json)))
| ObjectOpen (objects : list (list (string * json)))
             (members : list (string * json))
| AfterKey (objects : list (list (string * json)))
           (members : list (string * json)) (key : string)
| AfterColon (objects : list (list (string * json)))
             (members : list (string * json)) (key : string)
| AfterMember (objects : list (list (string * json)))
              (members : list (string * json))
| NextKey (objects : list (list (string * json)))
          (members : list (string * json))
| AfterObject (objects : list (list (string * json)))
| NextObject (objects : list (list (string * json)))
| Finished (objects : list (list (string * json))).

Definition step (st : parsing) (t : token) : option parsing :=
  match st, t with
  | Start, TOpenArray => Some (ArrayOpen [])
  | ArrayOpen os, TOpenObject => Some (ObjectOpen os [])
  | ArrayOpen os, TCloseArray => Some (Finished os)
  | ObjectOpen os ms, TString k => Some (AfterKey os ms k)
  | ObjectOpen os ms, TCloseObject => Some (AfterObject (rev ms :: os))
  | AfterKey os ms k, TColon => Some (AfterColon os ms k)
  | AfterColon os ms k, TString s => Some (AfterMember os ((k, JString s) :: ms))
  | AfterColon os ms k, TLiteral s =>
      (fun v => AfterMember os ((k, v) :: ms)) <$> literal_value s
  | AfterMember os ms, TComma => Some (NextKey os ms)
  | AfterMember os ms, TCloseObject => Some (AfterObject (rev ms :: os))
  | NextKey os ms, TString k => Some (AfterKey os ms k)
  | AfterObject os, TComma => Some (NextObject os)
  | AfterObject os, TCloseArray => Some (Finished os)
  | NextObject os, TOpenObject => Some (ObjectOpen os [])
  | _, _ => None
  end.

Fixpoint run (st : parsing) (ts : list token) : option parsing :=
  match ts with
  | [] => Some st
  | t :: rest =>
      match step st t with
      | Some st' => run st' rest
      | None => None
      end
  end.



(** *** What the encoder writes, token by token *)












End Json.

(** ** What the export properties speak of *)

(** The cells of a record, in column order. *)
Definition cells (r : GProduct) : list value :=
  [of_option VStr (title r); of_option VInt (reviews r);
   VFloat (seo_ease_use_average r);
   VFloat (seo_quality_support_average r);
   VFloat (seo_ease_setup_average r)].


Section ExportVocabulary.

Variable fmt : NumberFormat.




Definition csv_header : string :=
  "title,reviews,seo_ease_use_average,seo_quality_support_average,seo_ease_setup_average".






End ExportVocabulary.

(** ** Scripted runs *)

#[local] Set Warnings "-inexact-float".

Definition conductor_url : string :=
  "https://www.g2.com/products/conductor/features".

(** A page on which every lookup returns and every text parses: the
    review link matches twice, an empty text and the count. *)
Definition conductor_page : list reply :=
  [Done; Done; Text "Conductor"; Texts [""; "1234 reviews"];
   Text "8.5"; Text "9.1"; Text "8.7"].

(** The literal example of the specification. *)
Definition literal_page : list reply :=
  [Done; Done; Text "Conductor"; Texts ["1,234 reviews of 'Conductor'"];
   Text "8.5"; Text "9.1"; Text "8.7"].

Definition conductor_record : GProduct := {|
  title := Some "Conductor";
  reviews := Some 1234;
  seo_ease_use_average := Prim2SF 8.5;
  seo_quality_support_average := Prim2SF 9.1;
  seo_ease_setup_average := Prim2SF 8.7
|}.

Definition run_scripted (urls : list string) (script : list reply)
  : result unit * state (list reply) :=
  scrape_g2crowd_urls scripted reference_format urls (initial script ∅).

(** A page whose review link times out after the title was read. *)
Definition timeout_page : list reply :=
  [Done; Done; Text "Conductor"; Error "Timeout 30000ms exceeded."].

(** A page whose first score is not a number. *)
Definition unrated_page : list reply :=
  [Done; Done; Text "Conductor"; Texts [""; "1234 reviews"]; Text "N/A"].

(** A static page for the two selectors of the same colour. *)
Definition static_texts (sel : string) : outcome string :=
  if String.eqb sel title_xpath then Returned "Conductor"
  else if String.eqb sel seo_ease_use_average_xpath then Returned "8.5"
  else Returned "9.1".

Definition static_page : Page unit :=
  static static_texts (fun _ => Returned [""; "1234 reviews"]).

(** A static page on which the two scores of the same colour are not
    available and show as the text nan. *)
Definition nan_texts (sel : string) : outcome string :=
  if String.eqb sel title_xpath then Returned "Conductor"
  else if String.eqb sel seo_ease_use_average_xpath then Returned "8.5"
  else Returned "nan".

Definition nan_page : Page unit :=
  static nan_texts (fun _ => Returned [""; "1234 reviews"]).

(** A machine on which the browser cannot be launched. *)
Definition no_browser : list reply :=
  [Error "Executable doesn't exist"].

(** A browser that is gone when the run closes it. *)
Definition closed_early : list reply :=
  [Done; Done] ++ conductor_page ++ [Error "Target closed"].

(** A site that cannot be reached at all. *)
Definition unreachable_first : list reply :=
  [Error "net::ERR_NAME_NOT_RESOLVED"].

(** Two URLs, the second of which cannot be reached. *)
Definition unreachable_second : list reply :=
  conductor_page ++ [Error "net::ERR_CONNECTION_RESET"].

Definition after_first : state (list reply) :=
  snd (iteration scripted conductor_url (loop_entry unreachable_second ∅)).

(** The collection after a full record and a record whose review link
    timed out. *)
Definition two_records : list GProduct :=
  [conductor_record; set_title "Conductor" GProduct_default].


(** * Properties *)

(** The parsers and the selectors stay folded while a proof runs the
    loop body. *)
Arguments Py.float : simpl never.
Arguments Py.int : simpl never.
Arguments parse_reviews : simpl never.
Arguments title_xpath : simpl never.
Arguments reviews_xpath : simpl never.
Arguments seo_ease_use_average_xpath : simpl never.
Arguments seo_quality_support_average_xpath : simpl never.
Arguments seo_ease_setup_average_xpath : simpl never.
Arguments to_csv : simpl never.
Arguments to_json : simpl never.
Arguments json_normalize : simpl never.
Arguments String.append : simpl never.

(** ** What the parsers can raise *)

Lemma index_raises {A} (l : list A) i e :
  index l i = Raise e -> e = IndexError.
Proof. unfold index. destruct (l !! i); congruence. Qed.

Lemma int_raises t e : int t = Raise e -> e = ValueError.
Proof. unfold int. repeat case_match; congruence. Qed.

Lemma float_raises t e : float t = Raise e -> e = ValueError.
Proof. unfold float. repeat case_match; congruence. Qed.

Lemma parse_reviews_raises l e :
  parse_reviews l = Raise e -> e = IndexError \/ e = ValueError.
Proof.
  unfold parse_reviews.
  destruct (index (split " " (str_list l)) 1) as [token|e1] eqn:E1.
  - destruct (index (split chr_quote token) 1) as [segment|e2] eqn:E2.
    + intros H. right. eapply int_raises, H.
    + intros [= <-]. left. eapply index_raises, E2.
  - intros [= <-]. left. eapply index_raises, E1.
Qed.

(** ** The loop body *)

Section ScraperFacts.

Context {W : Type}.
Variable pg : Page W.
Variable fmt : NumberFormat.

Ltac call_cases :=
  match goal with
  | |- context [goto pg ?u ?w0] =>
      destruct (goto pg u w0) as [[[]|?msg] ?w] eqn:?
  | |- context [wait_for_load_state pg ?w0] =>
      destruct (wait_for_load_state pg w0) as [[[]|?msg] ?w] eqn:?
  | |- context [inner_text pg ?sel ?w0] =>
      destruct (inner_text pg sel w0) as [[?t|?msg] ?w] eqn:?
  | |- context [all_inner_texts pg ?sel ?w0] =>
      destruct (all_inner_texts pg sel w0) as [[?l|?msg] ?w] eqn:?
  | |- context [parse_reviews ?l0] =>
      let E := fresh "E" in
      destruct (parse_reviews l0) as [?n|?e] eqn:E;
      [| destruct (parse_reviews_raises _ _ E); subst]
  | |- context [float ?t0] =>
      let E := fresh "E" in
      destruct (float t0) as [?x|?e] eqn:E;
      [| pose proof (float_raises _ _ E); subst]
  end.

Lemma alter_last (f : GProduct -> GProduct) (h : list GProduct) r :
  alter f (length h) (h ++ [r]) = h ++ [f r].
Proof.
  induction h; simpl; [done|]. by f_equal.
Qed.

Ltac norm :=
  cbv beta iota zeta delta
    [navigate extract try_body iteration try_except_Error append_product print
     bind ret await setattr load_product new_product lift str
     with_world with_heap with_product with_product_list with_stdout
     with_files with_browser
     world heap product product_list stdout files browser fst snd];
  rewrite ?alter_last.

Ltac local_cases :=
  match goal with
  | |- context [match ?p with Some _ => _ | None => _ end] =>
      destruct p as [?p|] eqn:?
  end.

Ltac run := norm; repeat (call_cases; norm); try (local_cases; norm).

Lemma extract_shape s res s' :
  extract pg s = (res, s') ->
  exists r w,
    s' = with_world w (with_product (Some (length (heap s)))
           (with_heap (heap s ++ [r]) s)).
Proof.
  destruct s; run; intros [= <- <-]; eexists _, _; reflexivity.
Qed.

(** The loop never touches the browser calls or the files. *)
Lemma iteration_frame url s res s' :
  iteration pg url s = (res, s') ->
  browser s' = browser s /\ files s' = files s.
Proof.
  destruct s; run; intros [= <- <-]; auto.
Qed.

Lemma for_each_iteration_frame urls : forall s res s',
  for_each (iteration pg) urls s = (res, s') ->
  browser s' = browser s /\ files s' = files s.
Proof.
  induction urls as [|url urls IH]; intros s res s'; simpl.
  - intros [= <- <-]; auto.
  - unfold bind at 1.
    destruct (iteration pg url s) as [[[]|e] s1] eqn:E;
      apply iteration_frame in E as [Eb Ef].
    + intros H. apply IH in H as [-> ->]. auto.
    + intros [= <- <-]; auto.
Qed.

(** *** Invariants of the loop *)

Lemma iteration_allocated url s s' :
  allocated s -> iteration pg url s = (Ok tt, s') -> allocated s'.
Proof.
  intros [Hl Hp]. unfold allocated. destruct s; cbn in Hl, Hp.
  run; intros [= <-]; cbn.
  all: rewrite ?length_app; cbn.
  all: split;
    [ apply Forall_app; split;
      [ eapply Forall_impl; [exact Hl | cbn; intros; lia]
      | repeat constructor; try lia; eauto ]
    | intros ? [= <-]; try lia; eauto ].
Qed.

(** After a completed turn the local is bound to the object appended
    last. *)
Lemma iteration_binds url s s' :
  iteration pg url s = (Ok tt, s') ->
  exists p, product s' = Some p /\ last (product_list s') = Some p.
Proof.
  destruct s; run; intros [= <-]; cbn.
  all: eexists; split; [reflexivity | apply last_snoc].
Qed.

Lemma loop_state_allocated w fs n s : loop_state pg w fs n s -> allocated s.
Proof.
  induction 1 as [|n s url s' _ IH E].
  - split; [constructor | discriminate].
  - eapply iteration_allocated; eauto.
Qed.

Lemma loop_state_unbound w fs s : loop_state pg w fs 0 s -> product s = None.
Proof. inversion 1; reflexivity. Qed.

Lemma loop_state_bound w fs n s :
  loop_state pg w fs (S n) s ->
  exists p r,
    product s = Some p /\ last (product_list s) = Some p /\
    heap s !! p = Some r.
Proof.
  intros H. pose proof (loop_state_allocated _ _ _ _ H) as [_ Hp].
  inversion H as [|? ? ? ? _ E]; subst.
  destruct (iteration_binds _ _ _ E) as (p & Hb & Hl).
  destruct (lookup_lt_is_Some_2 (heap s) p (Hp _ Hb)) as [r Hr].
  eauto 6.
Qed.

(** One record per completed turn. *)
Lemma iteration_appends_one url s s' :
  iteration pg url s = (Ok tt, s') ->
  length (product_list s') = S (length (product_list s)).
Proof.
  destruct s; run; intros [= <-]; cbn.
  all: rewrite length_app; cbn; lia.
Qed.

Lemma loop_state_count w fs n s :
  loop_state pg w fs n s -> length (product_list s) = n.
Proof.
  induction 1 as [|n s url s' _ IH E]; [reflexivity|].
  rewrite (iteration_appends_one _ _ _ E). congruence.
Qed.

(** The loop of a run walks through loop states. *)
Lemma for_each_loop_state w fs urls : forall n s s',
  loop_state pg w fs n s ->
  for_each (iteration pg) urls s = (Ok tt, s') ->
  loop_state pg w fs (n + length urls) s'.
Proof.
  induction urls as [|url urls IH]; intros n s s' Hs; simpl.
  - intros [= <-]. by rewrite Nat.add_0_r.
  - unfold bind at 1.
    destruct (iteration pg url s) as [[[]|e] s1] eqn:E; [|discriminate].
    intros H. rewrite Nat.add_succ_r.
    apply (IH (S n) s1 s'); [econstructor; eauto | exact H].
Qed.

(** *** Navigation and the handler *)

Lemma navigate_frame url s res s1 :
  navigate pg url s = (res, s1) ->
  heap s1 = heap s /\ product s1 = product s /\
  product_list s1 = product_list s /\ stdout s1 = stdout s /\
  files s1 = files s /\ browser s1 = browser s.
Proof.
  destruct s; run; intros [= <- <-]; cbn; auto 10.
Qed.

(** A navigation that fails with Playwright's error leaves the [try]
    through the handler, before [product = GProduct()] was reached. *)
Lemma iteration_navigation_failed url s message s1 :
  navigate pg url s = (Raise (PlaywrightError message), s1) ->
  iteration pg url s =
    append_product (with_stdout (stdout s1 ++ [log_line url message]) s1).
Proof.
  intros H.
  cbv beta iota delta [iteration try_except_Error try_body bind print].
  rewrite H. reflexivity.
Qed.

Lemma iteration_extract url s s1 :
  navigate pg url s = (Ok tt, s1) ->
  iteration pg url s =
    match extract pg s1 with
    | (Ok _, s2) => append_product s2
    | (Raise (PlaywrightError message), s2) =>
        append_product (with_stdout (stdout s2 ++ [log_line url message]) s2)
    | (Raise e, s2) => (Raise e, s2)
    end.
Proof.
  intros H.
  cbv beta iota delta [iteration try_except_Error try_body bind print].
  rewrite H.
  destruct (extract pg s1) as [[[]|[]] s2]; reflexivity.
Qed.

Lemma extract_frame s res s' :
  extract pg s = (res, s') ->
  product s' = Some (length (heap s)) /\
  product_list s' = product_list s /\ stdout s' = stdout s /\
  files s' = files s /\ browser s' = browser s /\
  exists r, heap s' = heap s ++ [r].
Proof.
  intros H. destruct (extract_shape _ _ _ H) as (r & w & ->).
  cbn. eauto 10.
Qed.

Lemma scrape_unfold urls w fs :
  scrape_g2crowd_urls pg fmt urls (initial w fs) =
    (for_each (iteration pg) urls ;;
     save_to_csv fmt "g2_data" ;;
     save_to_json fmt "g2_data" ;;
     browser_do Close)%stmt (loop_entry w fs).
Proof. reflexivity. Qed.

Lemma product_records_snoc (s : state W) p r :
  heap s !! p = Some r ->
  product_records (with_product_list (product_list s ++ [p]) s) =
    product_records s ++ [r].
Proof.
  intros H. unfold product_records; cbn.
  rewrite omap_app. cbn. by rewrite H.
Qed.

Lemma product_records_last (s : state W) p r :
  last (product_list s) = Some p ->
  heap s !! p = Some r ->
  last (product_records s) = Some r.
Proof.
  intros Hl Hr. unfold product_records.
  destruct (product_list s) as [|q l] using rev_ind; [discriminate|].
  rewrite last_snoc in Hl. injection Hl as ->.
  rewrite omap_app. cbn. rewrite Hr. apply last_snoc.
Qed.

(** C10: when Playwright's error is raised by the navigation or the
    load wait, before [product = GProduct()], the append after the
    [except] appends no fresh record.  On the first URL the local
    [product] is unbound: the append raises [UnboundLocalError] and
    the run ends there, with no record and no file written.  On a
    later URL the local still holds the object of the previous turn:
    that same address is appended a second time, no object is
    allocated, and the collection shows the previous record twice. *)
Theorem failed_navigation_appends_no_fresh_record
    w fs n s url message s1 :
  loop_state pg w fs n s ->
  navigate pg url s = (Raise (PlaywrightError message), s1) ->
  let logged := with_stdout (stdout s ++ [log_line url message]) s1 in
  heap s1 = heap s /\
  match n with
  | O =>
      iteration pg url s = (Raise UnboundLocalError, logged) /\
      forall rest,
        scrape_g2crowd_urls pg fmt (url :: rest) (initial w fs) =
          (Raise UnboundLocalError, logged) /\
        product_list logged = [] /\ files logged = fs
  | S _ =>
      exists p r,
        last (product_list s) = Some p /\ heap s !! p = Some r /\
        last (product_records s) = Some r /\
        let s' := with_product_list (product_list s ++ [p]) logged in
        iteration pg url s = (Ok tt, s') /\
        product_records s' = product_records s ++ [r]
  end.
Proof.
  intros Hs Hn logged.
  destruct (navigate_frame _ _ _ _ Hn) as (Hh & Hp & Hl & Ho & Hf & Hb).
  split; [exact Hh|].
  pose proof (iteration_navigation_failed _ _ _ _ Hn) as Hi.
  rewrite Ho in Hi. fold logged in Hi.
  destruct n as [|n].
  - pose proof (loop_state_unbound _ _ _ Hs) as Hu.
    assert (Hi' : iteration pg url s = (Raise UnboundLocalError, logged)).
    { rewrite Hi. unfold append_product, bind, load_product.
      subst logged; cbn. by rewrite Hp, Hu. }
    split; [exact Hi'|].
    intros rest. inversion Hs; subst.
    split; [|split].
    + rewrite scrape_unfold. cbn [for_each].
      unfold bind at 1. unfold bind at 1. by rewrite Hi'.
    + subst logged; cbn. by rewrite Hl.
    + subst logged; cbn. by rewrite Hf.
  - destruct (loop_state_bound _ _ _ _ Hs) as (p & r & Hb' & Hl' & Hr).
    exists p, r. split; [exact Hl'|]. split; [exact Hr|].
    split; [eapply product_records_last; eauto|].
    assert (El : product_list logged = product_list s)
      by (subst logged; cbn; exact Hl).
    assert (Eh : heap logged = heap s) by (subst logged; cbn; exact Hh).
    cbn zeta. split.
    + rewrite Hi. unfold append_product, bind, load_product.
      replace (product logged) with (Some p)
        by (subst logged; cbn; congruence).
      by rewrite El.
    + rewrite <- El.
      rewrite (product_records_snoc logged p r) by (rewrite Eh; exact Hr).
      unfold product_records. by rewrite El, Eh.
Qed.

(** *** Failures inside the extraction *)

(** Whatever the extraction raises is Playwright's error from one of
    the five lookups, or [IndexError] or [ValueError] from a text that
    does not parse. *)
Lemma extract_raise_cases s e s' :
  extract pg s = (Raise e, s') ->
  match e with
  | PlaywrightError message =>
      exists sel w w', sel ∈ selectors /\
        (inner_text pg sel w = (Failed message, w') \/
         all_inner_texts pg sel w = (Failed message, w'))
  | UnboundLocalError => False
  | _ =>
      (exists l, parse_reviews l = Raise e) \/ (exists t, float t = Raise e)
  end.
Proof.
  unfold selectors.
  destruct s; run; intros [= <- <-]; try discriminate.
  all: first
    [ eexists _, _, _; split; [|eauto]; set_solver
    | left; eexists; eassumption
    | right; eexists; eassumption ].
Qed.

(** C2, as the code has it: the [except] clause names Playwright's
    [Error].  When a selector lookup fails with it during the
    extraction of a URL, the error is caught at that URL, a line with
    the URL and the message is printed, the record built so far is
    appended and the loop goes on with the next URL.  A text that does
    not parse raises [IndexError] or [ValueError], which the clause
    does not name: nothing is printed and the exception leaves the
    loop. *)
Theorem lookup_failure_is_caught_parse_failure_is_not
    url s s1 e s2 rest :
  navigate pg url s = (Ok tt, s1) ->
  extract pg s1 = (Raise e, s2) ->
  match e with
  | PlaywrightError message =>
      let s' :=
        with_product_list (product_list s ++ [length (heap s)])
          (with_stdout (stdout s ++ [log_line url message]) s2) in
      iteration pg url s = (Ok tt, s') /\
      for_each (iteration pg) (url :: rest) s =
        for_each (iteration pg) rest s'
  | _ =>
      (e = IndexError \/ e = ValueError) /\
      iteration pg url s = (Raise e, s2) /\
      for_each (iteration pg) (url :: rest) s = (Raise e, s2) /\
      stdout s2 = stdout s
  end.
Proof.
  intros Hn He.
  pose proof (iteration_extract _ _ _ Hn) as Hi. rewrite He in Hi.
  destruct (navigate_frame _ _ _ _ Hn) as (Hh & Hp & Hl & Ho & _).
  destruct (extract_frame _ _ _ He) as (Hp2 & Hl2 & Ho2 & _).
  pose proof (extract_raise_cases _ _ _ He) as Hc.
  destruct e as [message| | |]; [| | |contradiction].
  - assert (Hi' : iteration pg url s =
      (Ok tt, with_product_list (product_list s ++ [length (heap s)])
                (with_stdout (stdout s ++ [log_line url message]) s2))).
    { rewrite Hi. unfold append_product, bind, load_product; cbn.
      rewrite Hp2.
      change (product_list (with_stdout ?o s2)) with (product_list s2).
      by rewrite Hl2, Ho2, Hh, Hl, Ho. }
    split; [exact Hi'|].
    cbn [for_each]. unfold bind at 1. by rewrite Hi'.
  - split; [by right|]. split; [exact Hi|]. split; [|congruence].
    cbn [for_each]. unfold bind at 1. by rewrite Hi.
  - split; [by left|]. split; [exact Hi|]. split; [|congruence].
    cbn [for_each]. unfold bind at 1. by rewrite Hi.
Qed.

(** C3, as the code has it: the chain runs on [str] of the list of
    texts, that is on the list's printed form with its brackets,
    quotes and separators: split on a space, token at index 1, split
    on an apostrophe, segment at index 1, [int].  When every lookup
    returns and every text parses, the turn appends the record with
    the title text, that integer and the three parsed scores. *)
Theorem review_count_chain
    url s w1 w2 t w3 l w4 token segment n t1 w5 a t2 w6 b t3 w7 c :
  goto pg url (world s) = (Returned tt, w1) ->
  wait_for_load_state pg w1 = (Returned tt, w2) ->
  inner_text pg title_xpath w2 = (Returned t, w3) ->
  all_inner_texts pg reviews_xpath w3 = (Returned l, w4) ->
  split " " (str_list l) !! 1%nat = Some token ->
  split chr_quote token !! 1%nat = Some segment ->
  int segment = Ok n ->
  inner_text pg seo_ease_use_average_xpath w4 = (Returned t1, w5) ->
  float t1 = Ok a ->
  inner_text pg seo_quality_support_average_xpath w5 = (Returned t2, w6) ->
  float t2 = Ok b ->
  inner_text pg seo_ease_setup_average_xpath w6 = (Returned t3, w7) ->
  float t3 = Ok c ->
  let r := {| title := Some t; reviews := Some n;
              seo_ease_use_average := a;
              seo_quality_support_average := b;
              seo_ease_setup_average := c |} in
  iteration pg url s =
    (Ok tt,
     with_product_list (product_list s ++ [length (heap s)])
       (with_world w7
          (with_product (Some (length (heap s)))
             (with_heap (heap s ++ [r]) s)))).
Proof.
  intros G1 G2 T1 T2 P1 P2 P3 U1 U2 Q1 Q2 S1 S2 r.
  assert (P : parse_reviews l = Ok n).
  { unfold parse_reviews, index. by rewrite P1, P2. }
  destruct s; norm. cbn in G1.
  rewrite G1; norm. rewrite G2; norm. rewrite T1; norm.
  rewrite T2; norm. rewrite P; norm. rewrite U1; norm. rewrite U2; norm.
  rewrite Q1; norm. rewrite Q2; norm. rewrite S1; norm. rewrite S2; norm.
  reflexivity.
Qed.

(** *** The two selectors of the same colour *)

Lemma SFeqb_refl (x : pyfloat) : isnan x = false -> SFeqb x x = true.
Proof.
  destruct x as [[]|[]| |[] m e]; cbn; try done; intros _.
  all: unfold SFeqb; cbn; rewrite Z.compare_refl, Pos.compare_cont_refl; done.
Qed.

Lemma SFeqb_same (x : pyfloat) : SFeqb x x = negb (isnan x).
Proof.
  destruct (isnan x) eqn:E; [by destruct x | by apply SFeqb_refl].
Qed.

(** C9, as the code has it: the selectors of
    [seo_quality_support_average] and [seo_ease_setup_average] are the
    same string, so on a page that shows equal text for equal selectors
    every extraction that assigns both fields leaves the same float in
    both.  The two fields are [==], as Python compares floats, exactly
    when that float is not a NaN: a NaN is not equal to itself. *)
Theorem equal_selectors_give_equal_scores s s' :
  repeatable pg ->
  extract pg s = (Ok tt, s') ->
  seo_quality_support_average_xpath = seo_ease_setup_average_xpath /\
  exists p r,
    product s' = Some p /\ heap s' !! p = Some r /\
    seo_quality_support_average r = seo_ease_setup_average r /\
    SFeqb (seo_quality_support_average r) (seo_ease_setup_average r) =
      negb (isnan (seo_ease_setup_average r)).
Proof.
  intros Hrep H. split; [reflexivity|]. revert H.
  destruct s; run; intros [= <-]; cbn.
  match goal with
  | H1 : inner_text pg seo_quality_support_average_xpath _ = _,
    H2 : inner_text pg seo_ease_setup_average_xpath _ = _ |- _ =>
      apply Hrep in H1;
      change seo_quality_support_average_xpath
        with seo_ease_setup_average_xpath in H1;
      rewrite H2 in H1; cbn in H1; injection H1 as ->
  end.
  eexists _, _. split; [reflexivity|].
  split; [apply list_lookup_middle; reflexivity|]. cbn.
  assert (x0 = x1) as -> by congruence.
  split; [reflexivity | apply SFeqb_same].
Qed.

(** When the extraction leaves with Playwright's error, a lookup
    raised it: the lookups before it returned and their texts were
    parsed, and the fresh record, to which the local is bound, holds
    exactly the values assigned from them, in the order title, reviews,
    ease of use, quality of support, with the defaults in every other
    field. *)
Lemma caught_lookup_failure_keeps_the_assigned_fields s message s' :
  extract pg s = (Raise (PlaywrightError message), s') ->
  exists r,
    lookup_fails pg (world s) message r (world s') /\
    heap s' = heap s ++ [r] /\ product s' = Some (length (heap s)).
Proof.
  destruct s; run; intros [= <- <-]; cbn.
  all: eexists; split; [|split; reflexivity].
  all: econstructor; eassumption.
Qed.

(** A loop that completes has appended one address per URL. *)
Lemma completed_loop_appends_once_per_url urls w fs s' :
  for_each (iteration pg) urls (loop_entry w fs) = (Ok tt, s') ->
  length (product_list s') = length urls.
Proof.
  intros H.
  apply (for_each_loop_state w fs urls 0 (loop_entry w fs) s') in H;
    [|constructor].
  exact (loop_state_count _ _ _ _ H).
Qed.

(** C8, as the code has it: the browser of a run is launched with
    [headless=False], a browser with a window; that launch is the first
    call of every run and the page is opened in it. *)
Theorem browser_is_launched_with_headless_false urls w fs :
  exists rest,
    browser (snd (scrape_g2crowd_urls pg fmt urls (initial w fs))) =
      Launch false :: NewPage :: rest.
Proof.
  rewrite scrape_unfold. unfold bind at 1.
  destruct (for_each (iteration pg) urls (loop_entry w fs))
    as [[[]|e] s1] eqn:E;
    apply for_each_iteration_frame in E as [Eb _]; cbn in Eb.
  - exists [Close]. cbn. by rewrite Eb.
  - exists []. cbn. exact Eb.
Qed.

(** *** The run as a whole *)

(** What a turn can raise, and what it has done by then. *)
Lemma iteration_raise_cases url s e s' :
  iteration pg url s = (Raise e, s') ->
  product_list s' = product_list s /\
  match e with
  | PlaywrightError _ => False
  | UnboundLocalError =>
      product s = None /\
      exists message, stdout s' = stdout s ++ [log_line url message]
  | _ => stdout s' = stdout s
  end.
Proof.
  destruct s; run; intros [= <- <-]; cbn; split; try reflexivity; eauto.
Qed.

(** A loop that raises has completed some turns and raised in the
    next. *)
Lemma for_each_raise w fs urls : forall n s e s',
  loop_state pg w fs n s ->
  for_each (iteration pg) urls s = (Raise e, s') ->
  exists k sk url,
    loop_state pg w fs (n + k) sk /\ urls !! k = Some url /\
    iteration pg url sk = (Raise e, s').
Proof.
  induction urls as [|url urls IH]; intros n s e s' Hs; simpl; [discriminate|].
  unfold bind at 1.
  destruct (iteration pg url s) as [[[]|e1] s1] eqn:E.
  - intros H.
    destruct (IH (S n) s1 e s' (loop_turn pg w fs n s url s1 Hs E) H)
      as (k & sk & u & Hk & Hu & Hi).
    exists (S k), sk, u. rewrite Nat.add_succ_r. auto.
  - intros [= <- <-]. exists 0%nat, s, url. rewrite Nat.add_0_r. auto.
Qed.

(** Every address of an allocated collection shows a record. *)
Lemma allocated_records_length (s : state W) :
  allocated s -> length (product_records s) = length (product_list s).
Proof.
  intros [Hl _]. unfold product_records.
  induction Hl as [|p l Hp _ IH]; [reflexivity|].
  cbn. destruct (lookup_lt_is_Some_2 _ _ Hp) as [r ->]. cbn. by rewrite IH.
Qed.

Lemma scrape_completed urls w fs s1 :
  for_each (iteration pg) urls (loop_entry w fs) = (Ok tt, s1) ->
  let df := json_normalize (map asdict (product_records s1)) in
  scrape_g2crowd_urls pg fmt urls (initial w fs) =
    (Ok tt,
     with_browser [Launch false; NewPage; Close]
       (with_files
          (<["g2_data.json" := to_json fmt df]>
             (<["g2_data.csv" := to_csv fmt df]> fs)) s1)).
Proof.
  intros E. rewrite scrape_unfold. unfold bind at 1. rewrite E.
  apply for_each_iteration_frame in E as [Eb Ef]. cbn in Eb, Ef.
  destruct s1; cbn in Eb, Ef; subst. reflexivity.
Qed.

(** A run that returns has written its two files from the same
    records, one per URL, over whatever the files held, and has closed
    the browser as its last call. *)
Theorem completed_run_writes_both_files urls w fs s' :
  scrape_g2crowd_urls pg fmt urls (initial w fs) = (Ok tt, s') ->
  let rs := product_records s' in
  let df := json_normalize (map asdict rs) in
  length rs = length urls /\
  length (rows df) = length urls /\
  files s' =
    <["g2_data.json" := to_json fmt df]>
      (<["g2_data.csv" := to_csv fmt df]> fs) /\
  browser s' = [Launch false; NewPage; Close].
Proof.
  intros H.
  destruct (for_each (iteration pg) urls (loop_entry w fs))
    as [[[]|e] s1] eqn:E.
  - rewrite (scrape_completed _ _ _ _ E) in H. injection H as <-.
    assert (Hn : length (product_records s1) = length urls).
    { pose proof (for_each_loop_state w fs urls 0 _ _ (loop_enter pg w fs) E)
        as Hs.
      rewrite (allocated_records_length _ (loop_state_allocated _ _ _ _ Hs)).
      exact (loop_state_count _ _ _ _ Hs). }
    change (product_records (with_browser _ (with_files _ s1)))
      with (product_records s1).
    cbn zeta. split; [exact Hn|]. split; [|split; reflexivity].
    unfold json_normalize. cbn [rows]. by rewrite !length_map.
  - rewrite scrape_unfold in H. unfold bind at 1 in H. rewrite E in H.
    discriminate.
Qed.

(** A loop that raises: no file was written, whatever was collected
    so far; the exception is not Playwright's error, and it is
    [UnboundLocalError] only when the navigation to the first URL
    failed. *)
Lemma loop_raise_cases urls w fs e s' :
  for_each (iteration pg) urls (loop_entry w fs) = (Raise e, s') ->
  files s' = fs /\
  browser s' = [Launch false; NewPage] /\
  (length (product_list s') < length urls)%nat /\
  match e with
  | PlaywrightError _ => False
  | UnboundLocalError =>
      exists url rest message,
        urls = url :: rest /\ product_list s' = [] /\
        stdout s' = [log_line url message]
  | _ => True
  end.
Proof.
  intros E.
  destruct (for_each_iteration_frame _ _ _ _ E) as [Eb Ef].
  destruct (for_each_raise w fs urls 0 _ _ _ (loop_enter pg w fs) E)
    as (k & sk & url & Hs & Hu & Hi).
  destruct (iteration_raise_cases _ _ _ _ Hi) as [Hl He].
  split; [exact Ef|]. split; [exact Eb|]. split.
  - rewrite Hl, (loop_state_count _ _ _ _ Hs). cbn.
    by apply lookup_lt_Some in Hu.
  - destruct e as [message| | |]; try done.
    destruct He as [Hp (message & Ho)].
    destruct k as [|k].
    + inversion Hs; subst. destruct urls as [|u rest]; [discriminate|].
      injection Hu as ->. exists url, rest, message. rewrite Hl, Ho. auto.
    + destruct (loop_state_bound _ _ _ _ Hs) as (p & r & Hb & _).
      congruence.
Qed.

Lemma with_world_same (s : state W) : with_world (world s) s = s.
Proof. by destruct s. Qed.

Lemma bind_cong {S A B} (c1 c2 : M S A) (k1 k2 : A -> M S B) s :
  (forall t, c1 t = c2 t) -> (forall a t, k1 a t = k2 a t) ->
  bind c1 k1 s = bind c2 k2 s.
Proof.
  intros Hc Hk. unfold bind. rewrite Hc.
  destruct (c2 s) as [[a|e] t]; [apply Hk | reflexivity].
Qed.

Lemma browser_await_returns c (call : W -> outcome unit * W) t :
  (forall w, call w = (Returned tt, w)) ->
  browser_await c call t = browser_do c t.
Proof.
  intros H. unfold browser_await, bind, browser_do, await.
  cbn [world with_browser]. rewrite H.
  by rewrite (with_world_same (with_browser _ t)).
Qed.

(** On a browser whose calls return, the run is [scrape_g2crowd_urls]. *)
Lemma answering_browser_run urls s :
  scrape_g2crowd_urls_with pg fmt answering urls s =
    scrape_g2crowd_urls pg fmt urls s.
Proof.
  unfold scrape_g2crowd_urls_with, scrape_g2crowd_urls.
  apply bind_cong; [intros t; by apply browser_await_returns | intros _ t].
  apply bind_cong; [intros t'; by apply browser_await_returns | intros _ t'].
  apply bind_cong; [reflexivity | intros _ t1].
  apply bind_cong; [reflexivity | intros _ t2].
  apply bind_cong; [reflexivity | intros _ t3].
  by apply browser_await_returns.
Qed.


(** Playwright's error ends a run only from one of the three calls on
    the browser, which stand outside the [try]: from [launch] or
    [new_page], before any URL is visited and with nothing written, or
    from [close], after the loop completed and both files were written
    with one record per URL.  It never leaves the loop. *)
Theorem playwright_error_ends_a_run_only_at_a_browser_call
    br urls w fs m s' :
  scrape_g2crowd_urls_with pg fmt br urls (initial w fs) =
    (Raise (PlaywrightError m), s') ->
  (exists w',
     launch br false w = (Failed m, w') /\
     s' = with_world w' (with_browser [Launch false] (initial w fs))) \/
  (exists w1 w',
     launch br false w = (Returned tt, w1) /\
     new_page br w1 = (Failed m, w') /\
     s' = loop_entry w' fs) \/
  (exists w1 w2 s1,
     launch br false w = (Returned tt, w1) /\
     new_page br w1 = (Returned tt, w2) /\
     for_each (iteration pg) urls (loop_entry w2 fs) = (Ok tt, s1) /\
     close br (world s1) = (Failed m, world s') /\
     browser s' = [Launch false; NewPage; Close] /\
     product_records s' = product_records s1 /\
     length (product_records s') = length urls /\
     let df := json_normalize (map asdict (product_records s')) in
     files s' =
       <["g2_data.json" := to_json fmt df]>
         (<["g2_data.csv" := to_csv fmt df]> fs)).
Proof.
  unfold scrape_g2crowd_urls_with, browser_await.
  unfold bind at 1. unfold bind at 1.
  cbv beta iota delta [browser_do await initial with_browser with_world
                       world browser heap product product_list stdout files
                       app].
  destruct (launch br false w) as [[[]|m1] w1] eqn:EL.
  2: { intros [= <- <-]. left. exists w1. auto. }
  unfold bind at 1. unfold bind at 1.
  cbv beta iota delta [browser_do await with_browser with_world
                       world browser heap product product_list stdout files
                       app].
  destruct (new_page br w1) as [[[]|m1] w2] eqn:EN.
  2: { intros [= <- <-]. right. left. exists w1, w2. auto. }
  change {| world := w2; browser := [Launch false; NewPage]; heap := [];
            product := None; product_list := []; stdout := [];
            files := fs |} with (loop_entry w2 fs).
  unfold bind at 1.
  destruct (for_each (iteration pg) urls (loop_entry w2 fs))
    as [[[]|e1] s1] eqn:E.
  2: { intros [= -> <-].
       by destruct (loop_raise_cases _ _ _ _ _ E) as (_ & _ & _ & []). }
  pose proof (for_each_loop_state w2 fs urls 0 _ _ (loop_enter pg w2 fs) E)
    as Hs.
  pose proof (allocated_records_length _ (loop_state_allocated _ _ _ _ Hs))
    as Hn.
  rewrite (loop_state_count _ _ _ _ Hs) in Hn. cbn in Hn.
  pose proof (for_each_iteration_frame _ _ _ _ E) as [Eb Ef]. cbn in Eb, Ef.
  intros H. right. right. exists w1, w2, s1.
  split; [reflexivity|]. split; [exact EN|]. split; [exact E|].
  clear E Hs. destruct s1 as [w3 b h p pl out fs1]; cbn in Eb, Ef, Hn.
  subst b fs1. revert H.
  cbv beta iota delta [bind save_to_csv save_to_json write_file dataframe
                       browser_do await with_files with_browser with_world
                       world browser heap product product_list stdout files
                       app].
  destruct (close br w3) as [[[]|m1] w4] eqn:EC; [discriminate|].
  intros [= <- <-]. cbn.
  split; [reflexivity|]. split; [reflexivity|]. split; [reflexivity|].
  split; [exact Hn | reflexivity].
Qed.




(** *** Records already collected *)

(** A turn adds to the store and to the list, at their ends. *)
Lemma iteration_grows url s res s' :
  iteration pg url s = (res, s') ->
  exists ext l,
    heap s' = heap s ++ ext /\ product_list s' = product_list s ++ l /\
    (length l <= 1)%nat.
Proof.
  destruct s; run; intros [= <- <-]; cbn.
  all: first
    [ by exists [], []; rewrite !app_nil_r; auto
    | by eexists [_], []; rewrite !app_nil_r; auto
    | by eexists [], [_]; rewrite !app_nil_r; auto
    | by eexists [_], [_]; auto ].
Qed.

Lemma product_records_grow (s s' : state W) ext l :
  allocated s ->
  heap s' = heap s ++ ext -> product_list s' = product_list s ++ l ->
  product_records s' =
    product_records s ++ omap (fun p => heap s' !! p) l.
Proof.
  intros [Hl _] Hh Hp. unfold product_records. rewrite Hp, omap_app.
  f_equal. rewrite Hh. clear Hp.
  induction Hl as [|p pl Hlt _ IH]; [reflexivity|].
  cbn. rewrite (lookup_app_l _ _ _ Hlt). by rewrite IH.
Qed.

Lemma omap_length_le {A B} (f : A -> option B) (l : list A) :
  (length (omap f l) <= length l)%nat.
Proof.
  induction l as [|a l IH]; [done|]. cbn. destruct (f a); cbn; lia.
Qed.

(** A record of the collection is never changed or removed by the
    turns that follow: whatever happens at the later URLs, the
    collection begins with the records it had, in their order, followed
    by at most one more per URL. *)
Theorem collected_records_are_kept w fs urls : forall n s res s',
  loop_state pg w fs n s ->
  for_each (iteration pg) urls s = (res, s') ->
  exists later,
    product_records s' = product_records s ++ later /\
    (length later <= length urls)%nat.
Proof.
  induction urls as [|url urls IH]; intros n s res s' Hs; simpl.
  - intros [= <- <-]. exists []. by rewrite app_nil_r.
  - unfold bind at 1.
    destruct (iteration pg url s) as [[[]|e] s1] eqn:E;
      pose proof (iteration_grows _ _ _ _ E) as (ext & l & Hh & Hp & Hn);
      pose proof (product_records_grow s s1 ext l
                    (loop_state_allocated _ _ _ _ Hs) Hh Hp) as Hr;
      pose proof (omap_length_le (fun p => heap s1 !! p) l) as Hle.
    + intros H.
      destruct (IH (S n) s1 res s' (loop_turn pg w fs n s url s1 Hs E) H)
        as (later & Hl & Hlen).
      eexists. rewrite Hl, Hr, <- app_assoc. split; [reflexivity|].
      rewrite length_app. lia.
    + intros [= <- <-]. eexists. split; [exact Hr | lia].
Qed.

(** *** The calls on the page *)






End ScraperFacts.

(** ** Runs on scripted pages *)

(** The record of the page above, as [review_count_chain] gives it. *)
Lemma review_count_chain_witness :
  iteration scripted conductor_url (loop_entry conductor_page ∅) =
    (Ok tt,
     with_product_list [0%nat]
       (with_world []
          (with_product (Some 0%nat)
             (with_heap [conductor_record] (loop_entry conductor_page ∅))))).
Proof.
  apply (review_count_chain scripted conductor_url
           (loop_entry conductor_page ∅)
           (tl conductor_page) (tl (tl conductor_page)) "Conductor"
           (skipn 3 conductor_page) [""; "1234 reviews"]
           (skipn 4 conductor_page) "'1234" "1234" 1234
           "8.5" (skipn 5 conductor_page) (Prim2SF 8.5)
           "9.1" (skipn 6 conductor_page) (Prim2SF 9.1)
           "8.7" [] (Prim2SF 8.7));
    vm_compute; reflexivity.
Defined.

(** C3, the literal example: [str] of the one-element list is the text
    [["1,234 reviews of 'Conductor'"]] with the double quotes of
    [repr]; its token at index 1 is [reviews], which holds no
    apostrophe, so the second index raises [IndexError]; the run ends
    there with no record and no file. *)
Lemma literal_example_raises_IndexError :
  split " " (str_list ["1,234 reviews of 'Conductor'"]) !! 1%nat
    = Some "reviews" /\
  split chr_quote "reviews" = ["reviews"] /\
  parse_reviews ["1,234 reviews of 'Conductor'"] = Raise IndexError /\
  fst (run_scripted [conductor_url] literal_page) = Raise IndexError /\
  product_records (snd (run_scripted [conductor_url] literal_page)) = [] /\
  files (snd (run_scripted [conductor_url] literal_page)) = ∅.
Proof. vm_compute. repeat split; reflexivity. Qed.

(** The caught branch of [lookup_failure_is_caught_parse_failure_is_not]
    on the page whose review link times out: the record with the title
    only is appended and the line is printed. *)
Lemma lookup_failure_witness :
  let s := loop_entry timeout_page ∅ in
  let s' :=
    with_product_list [0%nat]
      (with_stdout
         [log_line conductor_url "Timeout 30000ms exceeded."]
         (with_world []
            (with_product (Some 0%nat)
               (with_heap [set_title "Conductor" GProduct_default] s)))) in
  iteration scripted conductor_url s = (Ok tt, s') /\
  for_each (iteration scripted) [conductor_url; conductor_url] s =
    for_each (iteration scripted) [conductor_url] s'.
Proof.
  exact (lookup_failure_is_caught_parse_failure_is_not scripted
           conductor_url (loop_entry timeout_page ∅)
           (with_world [Text "Conductor"; Error "Timeout 30000ms exceeded."]
              (loop_entry timeout_page ∅))
           (PlaywrightError "Timeout 30000ms exceeded.")
           (with_world []
              (with_product (Some 0%nat)
                 (with_heap [set_title "Conductor" GProduct_default]
                    (loop_entry timeout_page ∅))))
           [conductor_url] eq_refl eq_refl).
Defined.

(** [caught_lookup_failure_keeps_the_assigned_fields] on the same page:
    the title was read and the review link timed out, so the record
    holds the title and the defaults. *)
Lemma caught_lookup_failure_witness :
  let s := with_world [Text "Conductor"; Error "Timeout 30000ms exceeded."]
             (loop_entry timeout_page ∅) in
  let s' := with_world []
              (with_product (Some 0%nat)
                 (with_heap [set_title "Conductor" GProduct_default]
                    (loop_entry timeout_page ∅))) in
  exists r,
    lookup_fails scripted (world s) "Timeout 30000ms exceeded." r (world s') /\
    heap s' = heap s ++ [r] /\ product s' = Some (length (heap s)).
Proof.
  exact (caught_lookup_failure_keeps_the_assigned_fields scripted
           (with_world [Text "Conductor"; Error "Timeout 30000ms exceeded."]
              (loop_entry timeout_page ∅))
           "Timeout 30000ms exceeded."
           (with_world []
              (with_product (Some 0%nat)
                 (with_heap [set_title "Conductor" GProduct_default]
                    (loop_entry timeout_page ∅))))
           eq_refl).
Defined.

(** The record of that run is the one with the title alone. *)
Lemma timeout_page_keeps_the_title :
  fst (extract scripted
         (with_world [Text "Conductor"; Error "Timeout 30000ms exceeded."]
            (loop_entry timeout_page ∅))) =
    Raise (PlaywrightError "Timeout 30000ms exceeded.") /\
  heap (snd (extract scripted
               (with_world [Text "Conductor"; Error "Timeout 30000ms exceeded."]
                  (loop_entry timeout_page ∅)))) =
    [set_title "Conductor" GProduct_default] /\
  lookup_fails scripted [Text "Conductor"; Error "Timeout 30000ms exceeded."]
    "Timeout 30000ms exceeded." (set_title "Conductor" GProduct_default) [].
Proof.
  split; [reflexivity|]. split; [reflexivity|].
  by apply (fails_at_reviews scripted _ _ "Conductor"
              [Error "Timeout 30000ms exceeded."]).
Qed.

(** [completed_loop_appends_once_per_url] on two URLs, the second of
    which cannot be reached: two entries all the same. *)
Lemma completed_loop_witness :
  length (product_list
            (snd (for_each (iteration scripted) [conductor_url; conductor_url]
                    (loop_entry unreachable_second ∅)))) = 2%nat.
Proof.
  apply (completed_loop_appends_once_per_url scripted
           [conductor_url; conductor_url] unreachable_second ∅
           (snd (for_each (iteration scripted) [conductor_url; conductor_url]
                   (loop_entry unreachable_second ∅)))).
  vm_compute. reflexivity.
Defined.

(** C2, a text that is not a number: [float] raises [ValueError],
    which is not Playwright's error; nothing is printed, no record is
    appended, no file is written, and the run ends with the exception. *)
Lemma unparseable_score_ends_the_run :
  float "N/A" = Raise ValueError /\
  fst (run_scripted [conductor_url; conductor_url]
         (unrated_page ++ conductor_page)) = Raise ValueError /\
  stdout (snd (run_scripted [conductor_url; conductor_url]
                 (unrated_page ++ conductor_page))) = [] /\
  product_list (snd (run_scripted [conductor_url; conductor_url]
                       (unrated_page ++ conductor_page))) = [] /\
  files (snd (run_scripted [conductor_url; conductor_url]
                (unrated_page ++ conductor_page))) = ∅.
Proof. vm_compute. repeat split; reflexivity. Qed.

(** C1, a navigation that fails on the configured URL: the error is
    caught and printed, but [product] was never bound, so the append
    raises [UnboundLocalError]; no record is appended for the URL and
    the run writes no file. *)
Lemma failed_navigation_on_the_only_url :
  run_scripted g2crowd_urls unreachable_first =
    (Raise UnboundLocalError,
     with_stdout [log_line conductor_url "net::ERR_NAME_NOT_RESOLVED"]
       (loop_entry [] ∅)) /\
  product_records (snd (run_scripted g2crowd_urls unreachable_first)) = [] /\
  files (snd (run_scripted g2crowd_urls unreachable_first)) = ∅.
Proof. vm_compute. repeat split; reflexivity. Qed.

(** C8: the run on the configured URL launches the browser with
    [headless=False]. *)
Lemma configured_run_launches_headed :
  browser (snd (run_scripted g2crowd_urls conductor_page)) =
    [Launch false; NewPage; Close].
Proof. vm_compute. reflexivity. Qed.

(** A static page shows the same text at every read. *)
Lemma static_page_repeatable : repeatable static_page.
Proof. intros sel [] t [] [= H]. exact H. Qed.

(** [equal_selectors_give_equal_scores] on the static page: both
    fields hold the float of the text 9.1. *)
Lemma equal_selectors_witness :
  seo_quality_support_average_xpath = seo_ease_setup_average_xpath /\
  exists p r,
    product (snd (extract static_page (initial tt ∅))) = Some p /\
    heap (snd (extract static_page (initial tt ∅))) !! p = Some r /\
    seo_quality_support_average r = seo_ease_setup_average r /\
    SFeqb (seo_quality_support_average r) (seo_ease_setup_average r) =
      negb (isnan (seo_ease_setup_average r)).
Proof.
  apply (equal_selectors_give_equal_scores static_page
           (initial tt ∅) (snd (extract static_page (initial tt ∅)))
           static_page_repeatable).
  vm_compute. reflexivity.
Defined.

(** C9, a page that shows the text nan for the selector of the two
    scores, the same at every read: [float] accepts the text, both
    fields are assigned a NaN, and the two fields are not [==]. *)
Lemma nan_scores_are_not_equal :
  repeatable nan_page /\
  float "nan" = Ok S754_nan /\
  let r := {| title := Some "Conductor"; reviews := Some 1234;
              seo_ease_use_average := Prim2SF 8.5;
              seo_quality_support_average := S754_nan;
              seo_ease_setup_average := S754_nan |} in
  extract nan_page (initial tt ∅) =
    (Ok tt, with_product (Some 0%nat) (with_heap [r] (initial tt ∅))) /\
  SFeqb (seo_quality_support_average r) (seo_ease_setup_average r) = false.
Proof.
  split; [intros sel [] t [] [= H]; exact H|].
  vm_compute. repeat split; reflexivity.
Qed.

(** The state after the first of the two URLs is a state of the loop. *)
Lemma after_first_loop_state :
  loop_state scripted unreachable_second ∅ 1 after_first.
Proof.
  apply (loop_turn scripted unreachable_second ∅ 0
           (loop_entry unreachable_second ∅) conductor_url);
    [apply loop_enter | vm_compute; reflexivity].
Defined.

(** Both branches of [failed_navigation_appends_no_fresh_record].  On
    the first URL the append raises and the run ends with nothing
    written.  On the second URL address 0 is appended again and the
    collection shows the record of the first URL twice. *)
Lemma failed_navigation_witness :
  (let logged :=
     with_stdout [log_line conductor_url "net::ERR_NAME_NOT_RESOLVED"]
       (with_world [] (loop_entry unreachable_first ∅)) in
   heap (with_world [] (loop_entry unreachable_first ∅)) =
     heap (loop_entry unreachable_first ∅) /\
   iteration scripted conductor_url (loop_entry unreachable_first ∅) =
     (Raise UnboundLocalError, logged) /\
   forall rest,
     scrape_g2crowd_urls scripted reference_format (conductor_url :: rest)
       (initial unreachable_first ∅) = (Raise UnboundLocalError, logged) /\
     product_list logged = [] /\ files logged = ∅) /\
  (let logged :=
     with_stdout [log_line conductor_url "net::ERR_CONNECTION_RESET"]
       (with_world [] after_first) in
   heap (with_world [] after_first) = heap after_first /\
   exists p r,
     last (product_list after_first) = Some p /\
     heap after_first !! p = Some r /\
     last (product_records after_first) = Some r /\
     let s' := with_product_list (product_list after_first ++ [p]) logged in
     iteration scripted conductor_url after_first = (Ok tt, s') /\
     product_records s' = product_records after_first ++ [r]).
Proof.
  split.
  - exact (failed_navigation_appends_no_fresh_record scripted
             reference_format unreachable_first ∅ 0
             (loop_entry unreachable_first ∅) conductor_url
             "net::ERR_NAME_NOT_RESOLVED"
             (with_world [] (loop_entry unreachable_first ∅))
             (loop_enter scripted unreachable_first ∅) eq_refl).
  - exact (failed_navigation_appends_no_fresh_record scripted
             reference_format unreachable_second ∅ 1 after_first
             conductor_url "net::ERR_CONNECTION_RESET"
             (with_world [] after_first)
             after_first_loop_state eq_refl).
Defined.

(** The same run, evaluated: the list holds address 0 twice. *)
Lemma failed_navigation_duplicates_the_row :
  product_list (snd (run_scripted [conductor_url; conductor_url]
                       unreachable_second)) = [0%nat; 0%nat] /\
  product_records (snd (run_scripted [conductor_url; conductor_url]
                          unreachable_second))
    = [conductor_record; conductor_record] /\
  length (heap (snd (run_scripted [conductor_url; conductor_url]
                       unreachable_second))) = 1%nat.
Proof. vm_compute. repeat split; reflexivity. Qed.

(** [completed_run_writes_both_files] on the configured URL, every
    lookup returning: one record, two files, the browser closed. *)
Lemma completed_run_witness :
  let s' := snd (run_scripted g2crowd_urls conductor_page) in
  let rs := product_records s' in
  let df := json_normalize (map asdict rs) in
  length rs = length g2crowd_urls /\
  length (rows df) = length g2crowd_urls /\
  files s' =
    <["g2_data.json" := to_json reference_format df]>
      (<["g2_data.csv" := to_csv reference_format df]> ∅) /\
  browser s' = [Launch false; NewPage; Close].
Proof.
  apply (completed_run_writes_both_files scripted reference_format
           g2crowd_urls conductor_page ∅
           (snd (run_scripted g2crowd_urls conductor_page))).
  vm_compute. reflexivity.
Defined.


(** [playwright_error_ends_a_run_only_at_a_browser_call] on a machine
    without the browser: the launch raises. *)
Lemma playwright_error_witness :
  let w := no_browser in
  let m := "Executable doesn't exist" in
  let s' := with_world [] (with_browser [Launch false] (initial no_browser ∅)) in
  (exists w',
     launch scripted_browser false w = (Failed m, w') /\
     s' = with_world w' (with_browser [Launch false] (initial w ∅))) \/
  (exists w1 w',
     launch scripted_browser false w = (Returned tt, w1) /\
     new_page scripted_browser w1 = (Failed m, w') /\
     s' = loop_entry w' ∅) \/
  (exists w1 w2 s1,
     launch scripted_browser false w = (Returned tt, w1) /\
     new_page scripted_browser w1 = (Returned tt, w2) /\
     for_each (iteration scripted) g2crowd_urls (loop_entry w2 ∅) =
       (Ok tt, s1) /\
     close scripted_browser (world s1) = (Failed m, world s') /\
     browser s' = [Launch false; NewPage; Close] /\
     product_records s' = product_records s1 /\
     length (product_records s') = length g2crowd_urls /\
     let df := json_normalize (map asdict (product_records s')) in
     files s' =
       <["g2_data.json" := to_json reference_format df]>
         (<["g2_data.csv" := to_csv reference_format df]> ∅)).
Proof.
  exact (playwright_error_ends_a_run_only_at_a_browser_call scripted
           reference_format scripted_browser g2crowd_urls no_browser ∅
           "Executable doesn't exist"
           (with_world [] (with_browser [Launch false] (initial no_browser ∅)))
           eq_refl).
Defined.

(** Runs that raise, evaluated: the launch fails; the page cannot be
    opened; the first score does not parse; the browser is gone when
    the run closes it, after both files were written. *)
Lemma runs_that_raise :
  scrape_g2crowd_urls_with scripted reference_format scripted_browser
    g2crowd_urls (initial no_browser ∅) =
    (Raise (PlaywrightError "Executable doesn't exist"),
     with_world [] (with_browser [Launch false] (initial no_browser ∅))) /\
  scrape_g2crowd_urls_with scripted reference_format scripted_browser
    g2crowd_urls (initial [Done; Error "Target closed"] ∅) =
    (Raise (PlaywrightError "Target closed"), loop_entry [] ∅) /\
  (let run :=
     scrape_g2crowd_urls_with scripted reference_format scripted_browser
       g2crowd_urls (initial ([Done; Done] ++ unrated_page) ∅) in
   fst run = Raise ValueError /\ files (snd run) = ∅ /\
   browser (snd run) = [Launch false; NewPage]) /\
  (let run :=
     scrape_g2crowd_urls_with scripted reference_format scripted_browser
       g2crowd_urls (initial closed_early ∅) in
   fst run = Raise (PlaywrightError "Target closed") /\
   browser (snd run) = [Launch false; NewPage; Close] /\
   product_records (snd run) = [conductor_record] /\
   dom (files (snd run)) = {["g2_data.csv"; "g2_data.json"]}).
Proof. vm_compute. repeat split; reflexivity. Qed.


(** [collected_records_are_kept] after the first of the two URLs: the
    failed navigation to the second leaves the first record as it was
    and adds one entry. *)
Lemma collected_records_witness :
  exists later,
    product_records
      (snd (for_each (iteration scripted) [conductor_url] after_first)) =
      product_records after_first ++ later /\
    (length later <= length [conductor_url])%nat.
Proof.
  apply (collected_records_are_kept scripted unreachable_second ∅
           [conductor_url] 1 after_first (Ok tt)
           (snd (for_each (iteration scripted) [conductor_url] after_first))
           after_first_loop_state).
  vm_compute. reflexivity.
Defined.



(** ** Characters of texts *)

Lemma chars_app a b : chars (a +:+ b) = chars a ++ chars b.
Proof.
  induction a as [|c a IH]; [reflexivity|].
  change (String c a +:+ b) with (String c (a +:+ b)).
  cbn [chars list_ascii_of_string app]. f_equal. exact IH.
Qed.


Lemma chars_text l : chars (text l) = l.
Proof. apply list_ascii_of_string_of_list_ascii. Qed.








(** *** Splitting a text into its lines *)

Lemma split_chars_line sep (a : list ascii) : forall cur rest,
  forallb (fun c => negb (Ascii.eqb c sep)) a = true ->
  split_chars sep cur (a ++ sep :: rest) =
    text (rev cur ++ a) :: split_chars sep [] rest.
Proof.
  induction a as [|c a IH]; intros cur rest H; cbn.
  - rewrite Ascii.eqb_refl. by rewrite app_nil_r.
  - cbn in H. apply andb_prop in H as [Hc Ha].
    destruct (Ascii.eqb c sep); [discriminate|].
    rewrite IH by exact Ha. cbn. by rewrite <- app_assoc.
Qed.


(** ** The review count of a single text *)

Lemma split_chars_whole sep (a : list ascii) : forall cur,
  forallb (fun c => negb (Ascii.eqb c sep)) a = true ->
  split_chars sep cur a = [text (rev cur ++ a)].
Proof.
  induction a as [|c a IH]; intros cur H; cbn.
  - by rewrite app_nil_r.
  - cbn in H. apply andb_prop in H as [Hc Ha].
    destruct (Ascii.eqb c sep); [discriminate|].
    rewrite IH by exact Ha. cbn. by rewrite <- app_assoc.
Qed.

(** A list of characters is free of [sep], or splits at its first
    [sep]. *)
Lemma first_occurrence sep (l : list ascii) :
  forallb (fun c => negb (Ascii.eqb c sep)) l = true \/
  exists a rest,
    l = a ++ sep :: rest /\
    forallb (fun c => negb (Ascii.eqb c sep)) a = true.
Proof.
  induction l as [|c l IH]; [by left|].
  destruct (Ascii.eqb c sep) eqn:E.
  - apply Ascii.eqb_eq in E as ->. right. by exists [], l.
  - destruct IH as [H|(a & rest & -> & H)].
    + left. cbn. by rewrite E.
    + right. exists (c :: a), rest. cbn. by rewrite E.
Qed.

(** The characters [repr] writes for a character other than an
    apostrophe hold no apostrophe, and those it writes for a character
    other than a space hold no space. *)
Lemma repr_char_no_quote c :
  Ascii.eqb chr_quote c = false ->
  forallb (fun d => negb (Ascii.eqb d chr_quote)) (repr_char chr_quote c) = true.
Proof.
  destruct c as [[] [] [] [] [] [] [] []]; vm_compute; congruence.
Qed.

Lemma repr_char_no_space c :
  negb (Ascii.eqb c " ") = true ->
  forallb (fun d => negb (Ascii.eqb d " ")) (repr_char chr_quote c) = true.
Proof.
  destruct c as [[] [] [] [] [] [] [] []]; vm_compute; congruence.
Qed.

Lemma repr_body_no_quote l :
  has_char chr_quote l = false ->
  forallb (fun d => negb (Ascii.eqb d chr_quote))
    (flat_map (repr_char chr_quote) l) = true.
Proof.
  induction l as [|c l IH]; [done|]. cbn [has_char existsb flat_map].
  intros [Hc Hl]%orb_false_elim.
  rewrite forallb_app, (repr_char_no_quote c Hc). by apply IH.
Qed.

Lemma repr_body_no_space l :
  forallb (fun d => negb (Ascii.eqb d " ")) l = true ->
  forallb (fun d => negb (Ascii.eqb d " "))
    (flat_map (repr_char chr_quote) l) = true.
Proof.
  induction l as [|c l IH]; [done|]. cbn [forallb flat_map].
  intros [Hc Hl]%andb_prop.
  rewrite forallb_app, (repr_char_no_space c Hc). by apply IH.
Qed.

(** [str] of a list of one text that holds no apostrophe: the text
    between apostrophes, between brackets. *)
Lemma chars_str_list_one t :
  has_char chr_quote (chars t) = false ->
  chars (str_list [t]) =
    "["%char :: chr_quote
      :: flat_map (repr_char chr_quote) (chars t) ++ [chr_quote; "]"%char].
Proof.
  intros H. unfold str_list. cbn [map join].
  unfold repr. cbv zeta. unfold repr_quote. rewrite H.
  cbn [andb]. rewrite !chars_app, chars_text.
  cbn. by rewrite <- app_assoc.
Qed.

Lemma no_space_count l :
  forallb (fun d => negb (Ascii.eqb d " ")) l = true ->
  List.filter (Ascii.eqb " ") l = [].
Proof.
  induction l as [|c l IH]; [done|]. cbn [List.filter forallb].
  intros [Hc Hl]%andb_prop. rewrite Ascii.eqb_sym.
  destruct (Ascii.eqb c " "); [discriminate|]. by apply IH.
Qed.

(** When the selector of the review count matches nothing, or one
    element whose text holds no apostrophe, the chain raises: the
    printed list has no apostrophe but the two around the text, so the
    token at index 1 is missing, or holds none and has no segment at
    index 1, or is the last one, whose segment at index 1 is the
    closing bracket. *)
Theorem review_count_needs_an_apostrophe (l : list string) :
  (length l <= 1)%nat ->
  Forall (fun t => has_char chr_quote (chars t) = false) l ->
  parse_reviews l =
    Raise (if decide (map spaces l = [1%nat]) then ValueError else IndexError).
Proof.
  destruct l as [|t [|t' l]]; cbn [length]; [| |lia].
  { intros _ _. vm_compute. reflexivity. }
  intros _ Ht. apply Forall_inv in Ht.
  pose proof (repr_body_no_quote _ Ht) as Hq.
  unfold parse_reviews, split. rewrite (chars_str_list_one t Ht).
  cbn [map]. unfold spaces.
  destruct (first_occurrence " " (chars t)) as [Hs|(a & rest & E & Ha)].
  - (* no space: one token *)
    rewrite (no_space_count _ Hs). cbn [length].
    rewrite split_chars_whole.
    + by destruct (decide _).
    + cbn [forallb]. rewrite forallb_app, (repr_body_no_space _ Hs).
      reflexivity.
  - rewrite E in Hq |- *. rewrite flat_map_app in Hq |- *.
    cbn [flat_map] in Hq |- *.
    change (repr_char chr_quote " ") with [" "%char] in Hq |- *.
    cbn [app] in Hq |- *.
    rewrite forallb_app in Hq. apply andb_prop in Hq as [_ Hq].
    cbn [forallb] in Hq. apply andb_prop in Hq as [_ Hq].
    rewrite List.filter_app, (no_space_count _ Ha). cbn [List.filter app].
    change (Ascii.eqb " " " ") with true. cbn [length].
    pose proof (repr_body_no_space _ Ha) as Hba.
    set (Ba := flat_map (repr_char chr_quote) a) in *.
    change ("["%char :: chr_quote :: Ba ++ " "%char :: ?x ++ ?y)
      with (("["%char :: chr_quote :: Ba) ++ " "%char :: x ++ y).
    rewrite <- (app_assoc Ba), <- app_comm_cons.
    rewrite app_comm_cons, app_comm_cons.
    rewrite split_chars_line
      by (cbn [forallb]; rewrite Hba; reflexivity).
    destruct (first_occurrence " " rest) as [Hr|(a' & rest' & E' & Ha')].
    + (* one space: the last token ends with the apostrophe and the
         bracket *)
      rewrite (no_space_count _ Hr). cbn [length].
      rewrite split_chars_whole
        by (rewrite forallb_app, (repr_body_no_space _ Hr); reflexivity).
      cbn [rev app index lookup list_lookup].
      rewrite chars_text.
      rewrite (split_chars_line chr_quote _ [] ["]"%char]) by exact Hq.
      cbn [rev app split_chars index lookup list_lookup].
      rewrite decide_True by reflexivity.
      vm_compute. reflexivity.
    + (* two spaces or more: the token at index 1 holds no apostrophe *)
      rewrite E' in Hq |- *. rewrite flat_map_app in Hq |- *.
      cbn [flat_map] in Hq |- *.
      change (repr_char chr_quote " ") with [" "%char] in Hq |- *.
      cbn [app] in Hq |- *.
      rewrite forallb_app in Hq. apply andb_prop in Hq as [Hq _].
      rewrite List.filter_app. cbn [List.filter].
      change (Ascii.eqb " " " ") with true.
      rewrite length_app. cbn [length].
      rewrite <- app_assoc, <- app_comm_cons.
      rewrite split_chars_line by exact (repr_body_no_space _ Ha').
      cbn [rev app index lookup list_lookup].
      rewrite chars_text, split_chars_whole by exact Hq.
      cbn [index lookup list_lookup].
      rewrite decide_False by (intros [= H]; lia).
      reflexivity.
Qed.

(** [review_count_needs_an_apostrophe] on a link text of one space:
    the segment at index 1 is the closing bracket. *)
Lemma review_count_needs_an_apostrophe_witness :
  parse_reviews ["1,234 reviews"] = Raise ValueError.
Proof.
  apply (review_count_needs_an_apostrophe ["1,234 reviews"]).
  - cbn. lia.
  - repeat constructor.
Defined.

(** ** The frame of a collection *)

Lemma asdict_keys r : map fst (asdict r) = field_names.
Proof. reflexivity. Qed.

Lemma first_seen_known (l seen : list string) :
  Forall (fun k => k ∈ seen) l -> first_seen seen l = [].
Proof.
  induction 1 as [|k l Hk _ IH]; [reflexivity|].
  cbn. by rewrite decide_True.
Qed.

Lemma labels_of_records (rs : list GProduct) :
  rs <> [] ->
  first_seen [] (flat_map (map fst) (map asdict rs)) = field_names.
Proof.
  destruct rs as [|r rs]; [done|]. intros _.
  cbn [map flat_map]. rewrite asdict_keys.
  assert (H : Forall (fun k => k ∈ rev field_names)
                (flat_map (map fst) (map asdict rs))).
  { induction rs as [|r' rs IH]; [constructor|].
    cbn [map flat_map]. rewrite asdict_keys. apply Forall_app. split; [|exact IH].
    apply Forall_forall. intros k Hk%list_elem_of_In.
    apply list_elem_of_In, in_rev. by rewrite rev_involutive. }
  change (first_seen [] (field_names ++ ?l))
    with (field_names ++ first_seen (rev field_names) l).
  rewrite first_seen_known by exact H. reflexivity.
Qed.

(** With at least one record the frame has the five columns in
    declaration order and one row of cells per record. *)
Lemma json_normalize_records (rs : list GProduct) :
  rs <> [] ->
  json_normalize (map asdict rs) =
    {| columns := field_names; rows := map cells rs |}.
Proof.
  intros H. unfold json_normalize. rewrite (labels_of_records rs H).
  f_equal. rewrite map_map. apply map_ext. intros r. reflexivity.
Qed.

(** Without a record it has no column at all. *)
Lemma json_normalize_nothing :
  json_normalize (map asdict []) = {| columns := []; rows := [] |}.
Proof. reflexivity. Qed.


Section ExportFacts.

Variable fmt : NumberFormat.









(** *** The JSON document *)


End ExportFacts.

(** *** The lexer reads back what the encoder writes *)

Module JsonFacts.
Import Json.


Lemma fmap_app_cons {A} (l : list A) (a : A) (o : option (list A)) :
  (fun ts => l ++ ts) <$> (cons a <$> o) = (fun ts => l ++ a :: ts) <$> o.
Proof. by destruct o. Qed.

















(** *** The automaton rebuilds the document *)








End JsonFacts.

(** ** The exports of a collection *)

Section ExportTheorems.

Context {W : Type}.
Variable fmt : NumberFormat.





Lemma export_paths_differ filename :
  filename +:+ ".csv" <> filename +:+ ".json".
Proof.
  induction filename as [|c f IH]; [discriminate|].
  intros [= E]. by apply IH.
Qed.


(** C7: an export writes a text that is a function of the records of
    the collection alone and leaves the collection as it was, so
    exporting again, with no mutation in between, writes the same
    bytes: CSV twice is CSV once, and CSV then JSON run twice is CSV
    then JSON run once.  The frame is derived at every export: an
    export made after an append shows the appended record. *)
Theorem export_is_idempotent (s : state W) (filename : string) :
  (save_to_csv fmt filename ;; save_to_csv fmt filename)%stmt s =
    save_to_csv fmt filename s /\
  (save_to_csv fmt filename ;; save_to_json fmt filename ;;
   save_to_csv fmt filename ;; save_to_json fmt filename)%stmt s =
    (save_to_csv fmt filename ;; save_to_json fmt filename)%stmt s /\
  files (snd (save_to_csv fmt filename s)) !! (filename +:+ ".csv") =
    Some (to_csv fmt (json_normalize (map asdict (product_records s)))) /\
  files (snd (save_to_json fmt filename s)) !! (filename +:+ ".json") =
    Some (to_json fmt (json_normalize (map asdict (product_records s)))) /\
  product_records (snd (save_to_csv fmt filename s)) = product_records s /\
  product_records (snd (save_to_json fmt filename s)) = product_records s /\
  forall p,
    let s' := with_product_list (product_list s ++ [p]) s in
    files (snd ((save_to_csv fmt filename ;;
                 (fun s1 => (Ok tt,
                    with_product_list (product_list s1 ++ [p]) s1)) ;;
                 save_to_csv fmt filename)%stmt s))
      !! (filename +:+ ".csv") =
    Some (to_csv fmt (json_normalize (map asdict (product_records s')))).
Proof.
  pose proof (export_paths_differ filename) as Hne.
  destruct s as [w b h p pl out fs].
  unfold save_to_csv, save_to_json, write_file, bind, dataframe,
    product_records, with_files; cbn [files heap product_list snd].
  repeat split.
  - by rewrite insert_insert_eq.
  - do 2 f_equal.
    rewrite (insert_insert_ne _ (filename +:+ ".json") (filename +:+ ".csv"))
      by done.
    rewrite insert_insert_eq.
    rewrite (insert_insert_ne _ (filename +:+ ".csv") (filename +:+ ".json"))
      by done.
    by rewrite insert_insert_eq.
  - by rewrite lookup_insert_eq.
  - by rewrite lookup_insert_eq.
  - intros q. cbn. by rewrite lookup_insert_eq.
Qed.

(** *** The two exports side by side *)



(** *** The frame and the list *)

Lemma product_records_lookup (s : state W) i p :
  allocated s -> product_list s !! i = Some p ->
  product_records s !! i = heap s !! p.
Proof.
  intros [Hl _]. unfold product_records. revert i.
  induction Hl as [|q l Hq _ IH]; intros i; [done|].
  cbn. destruct (lookup_lt_is_Some_2 _ _ Hq) as [r Hr]. rewrite Hr. cbn.
  destruct i as [|i]; cbn; [by intros [= ->] | apply IH].
Qed.

(** The frame follows the list, entry by entry: row [i] shows the
    object whose address the list holds at [i], so an object the list
    holds twice gives two equal rows.  The columns are the five fields
    in declaration order as soon as the list has an entry, and none
    before. *)
Theorem dataframe_rows_follow_the_list (s : state W) :
  allocated s ->
  let df := dataframe s in
  columns df = (if decide (product_list s = []) then [] else field_names) /\
  length (rows df) = length (product_list s) /\
  forall i p,
    product_list s !! i = Some p ->
    exists r, heap s !! p = Some r /\ rows df !! i = Some (cells r).
Proof.
  intros Ha df.
  pose proof (allocated_records_length s Ha) as Hn.
  assert (Hr : rows df = map cells (product_records s)).
  { subst df. unfold dataframe.
    destruct (decide (product_records s = [])) as [->|Hne]; [reflexivity|].
    by rewrite (json_normalize_records _ Hne). }
  split; [|split].
  - subst df. unfold dataframe. destruct (decide (product_list s = [])) as [E|E].
    + rewrite E in Hn. destruct (product_records s); [reflexivity|discriminate].
    + rewrite json_normalize_records; [reflexivity|].
      intros E'. rewrite E' in Hn. destruct (product_list s); done.
  - by rewrite Hr, length_map.
  - intros i p Hp.
    destruct Ha as [Hl Hb].
    pose proof (proj1 (Forall_lookup _ _) Hl i p Hp) as Hlt. cbn in Hlt.
    destruct (lookup_lt_is_Some_2 _ _ Hlt) as [r Hh].
    exists r. split; [exact Hh|].
    rewrite Hr, list_lookup_fmap, (product_records_lookup s i p (conj Hl Hb) Hp).
    by rewrite Hh.
Qed.

End ExportTheorems.

(** ** The reference format prints numbers *)











(** ** Exports of scripted runs *)




(** The file of [two_records], evaluated: the count of the first record
    prints as a float because the second has none. *)
Lemma csv_of_two_records :
  split chr_lf
    (to_csv reference_format (json_normalize (map asdict two_records)))
  = [csv_header; "Conductor,1234.0,8.5,9.1,8.7"; "Conductor,,0.0,0.0,0.0"; ""].
Proof. vm_compute. reflexivity. Qed.


(** [dataframe_rows_follow_the_list] after the run whose second URL
    cannot be reached: the list holds address 0 twice, and both rows
    show the record at that address. *)
Lemma dataframe_rows_witness :
  let s := snd (run_scripted [conductor_url; conductor_url]
                  unreachable_second) in
  let df := dataframe s in
  columns df = (if decide (product_list s = []) then [] else field_names) /\
  length (rows df) = length (product_list s) /\
  forall i p,
    product_list s !! i = Some p ->
    exists r, heap s !! p = Some r /\ rows df !! i = Some (cells r).
Proof.
  apply (dataframe_rows_follow_the_list
           (snd (run_scripted [conductor_url; conductor_url]
                   unreachable_second))).
  split.
  - vm_compute. repeat constructor.
  - intros p. vm_compute. intros [= <-]. lia.
Defined.
